(** * dbus-mqtt-meter: the [Meter] aggregation engine

    A shallow embedding of [class Meter] of [dbus-mqtt-meter.py]: the sensor
    dictionary [self.data], the D-Bus service [self.service] seen as a map
    from object paths to Python values, the change-suppressing [set_path]
    and the [update] callback with its [try]/[except] structure.

    Python's [float] is IEEE 754 binary64, embedded as Rocq's primitive
    floats.  Python [str] and [bytes] are both embedded as Rocq strings
    (sequences of bytes): a [str] is represented by its UTF-8 encoding.
    Topics are ASCII, as the ten subscribed topics are, so that slicing and
    the regular expression [\d] act on bytes as they act on code points.

    [float()] of the Python runtime is a parameter of [update]; the
    properties hold for every such function that rejects "unavailable". *)

From Stdlib Require Import Ascii String PrimFloat FloatOps SpecFloat Uint63.
From Stdlib Require Import QArith Qabs Lqa FloatAxioms.
From stdpp Require Import gmap strings list pretty.

Local Open Scope string_scope.
Local Open Scope list_scope.

(** ** Python values and exceptions *)

(** The values the service holds: [None], floats, and the integers and
    strings of the management paths. *)
Inductive pyval :=
  | PyNone
  | PyFloat (f : float)
  | PyInt (z : Z)
  | PyStr (s : string).

(** The exceptions that occur in [Meter.update]. *)
Inductive exn := KeyError | ValueError | ZeroDivisionError.

(** What [update] makes visible outside the object: a write to the service
    ([self.service[path] = value]) and the two [logger.warning] calls. *)
Inductive event :=
  | Publish (path : string) (value : float)
  | WarnKeyError
  | WarnUnavailable (sensor : string).

Inductive result (A : Type) :=
  | Ok (a : A)
  | Raise (e : exn).
Arguments Ok {A} a.
Arguments Raise {A} e.

Module Py.

(** [x == n] for a float [x] and an int [n]: Python compares the exact
    mathematical values. *)
Definition float_eq_int (x : float) (n : Z) : bool :=
  match Prim2SF x with
  | S754_zero _ => (n =? 0)%Z
  | S754_finite s m e =>
      let sm := if s then Z.neg m else Z.pos m in
      if (0 <=? e)%Z then (n =? sm * 2 ^ e)%Z else (n * 2 ^ (- e) =? sm)%Z
  | S754_infinity _ | S754_nan => false
  end.

(** [old != value] where [value] is a float: IEEE inequality between
    floats ([nan != nan], [0.0 == -0.0]); [None] and strings differ from
    every float. *)
Definition ne (old : pyval) (value : float) : bool :=
  match old with
  | PyNone => true
  | PyFloat f => negb (PrimFloat.eqb f value)
  | PyInt n => negb (float_eq_int value n)
  | PyStr _ => true
  end.

(** [a / b] on floats raises [ZeroDivisionError] when [b == 0.0]. *)
Definition truediv (a b : float) : result float :=
  if PrimFloat.eqb b 0%float then Raise ZeroDivisionError
  else Ok (a / b)%float.

(** [s[:-6]]: everything but the last six characters ([''] when [s] has
    at most six). *)
Definition drop_last6 (s : string) : string :=
  String.substring 0 (String.length s - 6) s.

Definition is_digit (c : ascii) : bool :=
  ((48 <=? nat_of_ascii c) && (nat_of_ascii c <=? 57))%nat.

(** [re.search(r"\d", s)]: the first digit of [s], as the one-character
    string [match.group(0)]. *)
Fixpoint re_search_digit (s : string) : option string :=
  match s with
  | EmptyString => None
  | String c s' =>
      if is_digit c then Some (String c EmptyString) else re_search_digit s'
  end.

(** The strict UTF-8 decoder of [bytes.decode()], as an automaton: either
    at a character boundary, or expecting a continuation byte within
    [lo..hi] followed by [rest] more continuation bytes. *)
Inductive utf8_state :=
  | Boundary
  | Continuation (lo hi : N) (rest : nat).

Definition utf8_lead (b : N) : option utf8_state :=
  if (b <=? 0x7F)%N then Some Boundary
  else if (b <? 0xC2)%N then None
  else if (b <=? 0xDF)%N then Some (Continuation 0x80 0xBF 0)
  else if (b =? 0xE0)%N then Some (Continuation 0xA0 0xBF 1)
  else if (b =? 0xED)%N then Some (Continuation 0x80 0x9F 1)
  else if (b <=? 0xEF)%N then Some (Continuation 0x80 0xBF 1)
  else if (b =? 0xF0)%N then Some (Continuation 0x90 0xBF 2)
  else if (b <=? 0xF3)%N then Some (Continuation 0x80 0xBF 2)
  else if (b =? 0xF4)%N then Some (Continuation 0x80 0x8F 2)
  else None.

Fixpoint utf8_run (st : utf8_state) (s : string) : bool :=
  match s with
  | EmptyString => match st with Boundary => true | _ => false end
  | String c s' =>
      let b := N_of_ascii c in
      match st with
      | Boundary =>
          match utf8_lead b with
          | Some st' => utf8_run st' s'
          | None => false
          end
      | Continuation lo hi rest =>
          if ((lo <=? b) && (b <=? hi))%N then
            match rest with
            | O => utf8_run Boundary s'
            | S r => utf8_run (Continuation 0x80 0xBF r) s'
            end
          else false
      end
  end.

(** [payload.decode()]: the text, or [None] for [UnicodeDecodeError]
    (a subclass of [ValueError]). *)
Definition decode (payload : string) : option string :=
  if utf8_run Boundary payload then Some payload else None.

End Py.

(** ** The meter object *)

(** [self.data] is the dictionary of sensor readings.  [self.service] is a
    [VeDbusService] of velib_python, which is not part of this repository;
    it is modelled at the interface [Meter] uses: [add_path] registers an
    object path with its first value, [service[path]] reads the value and
    [service[path] = value] stores it and publishes it on the bus, both
    raising [KeyError] for a path that was not added. *)
Record Meter := mkMeter {
  instance : Z;
  service : gmap string pyval;
  data : gmap string float
}.

Definition with_service (f : gmap string pyval → gmap string pyval) (m : Meter) : Meter :=
  {| instance := instance m; service := f (service m); data := data m |}.

Definition with_data (f : gmap string float → gmap string float) (m : Meter) : Meter :=
  {| instance := instance m; service := service m; data := f (data m) |}.

(** A method body: it reads and writes the object, emits events, and
    returns or raises.  The state and the events of a body that raises are
    kept, as Python keeps the mutations made before an exception. *)
Definition M (A : Type) : Type := Meter → result A * Meter * list event.

Definition ret {A} (a : A) : M A := λ m, (Ok a, m, []).

Definition raise {A} (e : exn) : M A := λ m, (Raise e, m, []).

Definition bind {A B} (c : M A) (k : A → M B) : M B := λ m,
  match c m with
  | (Ok a, m1, w1) => let '(r, m2, w2) := k a m1 in (r, m2, w1 ++ w2)
  | (Raise e, m1, w1) => (Raise e, m1, w1)
  end.

(** [try: body except ...: handler]; a handler re-raises what no clause
    catches. *)
Definition try_except {A} (body : M A) (handler : exn → M A) : M A := λ m,
  match body m with
  | (Ok a, m1, w1) => (Ok a, m1, w1)
  | (Raise e, m1, w1) => let '(r, m2, w2) := handler e m1 in (r, m2, w1 ++ w2)
  end.

Declare Scope meter_scope.
Delimit Scope meter_scope with meter.
Notation "x <~ c ; k" := (bind c (λ x, k))
  (at level 100, c at next level, k at level 200, right associativity) : meter_scope.
Notation "c ;; k" := (bind c (λ _, k))
  (at level 100, k at level 200, right associativity, only parsing) : meter_scope.

Definition lift_result {A} (r : result A) : M A := λ m, (r, m, []).

Definition emit (e : event) : M unit := λ m, (Ok tt, m, [e]).

(** [self.data[key]] *)
Definition data_get (key : string) : M float := λ m,
  match data m !! key with
  | Some v => (Ok v, m, [])
  | None => (Raise KeyError, m, [])
  end.

(** [self.data[key] = value] *)
Definition data_set (key : string) (value : float) : M unit := λ m,
  (Ok tt, with_data (insert key value) m, []).

(** [self.service[path]]: [KeyError] for a path that was never added. *)
Definition service_get (path : string) : M pyval := λ m,
  match service m !! path with
  | Some v => (Ok v, m, [])
  | None => (Raise KeyError, m, [])
  end.

(** [self.service[path] = value]: the value is stored and published on the
    bus. *)
Definition service_set (path : string) (value : float) : M unit := λ m,
  match service m !! path with
  | Some _ => (Ok tt, with_service (insert path (PyFloat value)) m, [Publish path value])
  | None => (Raise KeyError, m, [])
  end.

Definition K_bezug : string := "hass/sensor/netz_bezug".
Definition K_einspeisung : string := "hass/sensor/netz_einspeisung".
Definition P_power : string := "/Ac/Power".

Definition data_map : gmap string string :=
  list_to_map [
    ("hass/sensor/zahlerstand_bezug", "/Ac/Energy/Forward");
    ("hass/sensor/zahlerstand_einspeisung", "/Ac/Energy/Reverse");
    ("hass/sensor/netz_i1", "/Ac/L1/Current");
    ("hass/sensor/netz_u1", "/Ac/L1/Voltage");
    ("hass/sensor/netz_i2", "/Ac/L2/Current");
    ("hass/sensor/netz_u2", "/Ac/L2/Voltage");
    ("hass/sensor/netz_i3", "/Ac/L3/Current");
    ("hass/sensor/netz_u3", "/Ac/L3/Voltage")
  ].

(** The paths [__init__] adds to the service, in order, with their first
    values; [file] is [__file__]. *)
Definition initial_paths (host file : string) (inst : Z) : list (string * pyval) :=
  [ ("/Management/ProcessName", PyStr file);
    ("/Management/ProcessVersion", PyStr "0.1");
    ("/Management/Connection", PyStr host);
    ("/DeviceInstance", PyInt inst);
    ("/ProductId", PyInt 0xFFFF);
    ("/ProductName", PyStr "MQTT meter");
    ("/FirmwareVersion", PyNone);
    ("/Serial", PyNone);
    ("/Connected", PyInt 1);
    ("/Ac/Energy/Forward", PyNone);
    ("/Ac/Energy/Reverse", PyNone);
    ("/Ac/L1/Current", PyNone);
    ("/Ac/L1/Power", PyNone);
    ("/Ac/L1/Voltage", PyNone);
    ("/Ac/L2/Current", PyNone);
    ("/Ac/L2/Power", PyNone);
    ("/Ac/L2/Voltage", PyNone);
    ("/Ac/L3/Current", PyNone);
    ("/Ac/L3/Power", PyNone);
    ("/Ac/L3/Voltage", PyNone);
    ("/Ac/Power", PyNone) ].

(** [Meter.__init__(host, base, instance)]; [base] only names the service
    on the bus. *)
Definition init (host file : string) (inst : Z) : Meter :=
  {| instance := inst;
     service := list_to_map (initial_paths host file inst);
     data := <[K_einspeisung := 0%float]> (<[K_bezug := 0%float]> ∅) |}.

Local Open Scope meter_scope.

(** [Meter.set_path] *)
Definition set_path (path : string) (value : float) : M unit :=
  old <~ service_get path;
  if Py.ne old value then service_set path value else ret tt.

(** A predicate on events that rules out a publication to [path]. *)
Definition silent_on (path : string) (ev : event) : Prop :=
  match ev with
  | Publish p _ => p ≠ path
  | _ => True
  end.

(** A body keeps the invariant [I], emits only events satisfying [Q] and
    raises only exceptions satisfying [E]. *)
Definition safe {A} (I : Meter → Prop) (E : exn → Prop) (Q : event → Prop)
    (c : M A) : Prop :=
  ∀ m, I m →
    I (c m).1.2 ∧ Forall Q (c m).2 ∧ ∀ e, (c m).1.1 = Raise e → E e.

Section Update.

(** [float(s)] of the Python runtime: the value, or [None] for
    [ValueError]. *)
Variable py_float : string → option float.

(** [float(payload.decode())] *)
Definition float_of_payload (payload : string) : option float :=
  s ← Py.decode payload; py_float s.

Definition parse (payload : string) : M float :=
  match float_of_payload payload with
  | Some v => ret v
  | None => raise ValueError
  end.

(** The per-phase branch of [update], lines 123 to 140. *)
Definition phase_branch (phase_no : string) (total_power : float) : M unit :=
  i1 <~ data_get "hass/sensor/netz_i1";
  u1 <~ data_get "hass/sensor/netz_u1";
  i2 <~ data_get "hass/sensor/netz_i2";
  u2 <~ data_get "hass/sensor/netz_u2";
  i3 <~ data_get "hass/sensor/netz_i3";
  u3 <~ data_get "hass/sensor/netz_u3";
  factor <~ lift_result (Py.truediv total_power (i1 * u1 + i2 * u2 + i3 * u3)%float);
  i <~ data_get ("hass/sensor/netz_i" +:+ phase_no);
  u <~ data_get ("hass/sensor/netz_u" +:+ phase_no);
  let phase_power := (factor * i * u)%float in
  set_path ("/Ac/L" +:+ phase_no +:+ "/Power") phase_power.

(** Lines 112 to 140: forward the reading, derive the total power and,
    for a per-phase sensor, the power of its phase. *)
Definition forward_and_derive (sensor : string) (value : float) : M unit :=
  match data_map !! sensor with
  | Some path => set_path path value
  | None => ret tt
  end;;
  bezug <~ data_get K_bezug;
  einspeisung <~ data_get K_einspeisung;
  let total_power := (1000.0 * (bezug - einspeisung))%float in
  set_path P_power total_power;;
  match Py.re_search_digit sensor with
  | Some phase_no => phase_branch phase_no total_power
  | None => ret tt
  end.

(** Line 115: the total power in watts. *)
Definition total_power_of (bezug einspeisung : float) : float :=
  (1000.0 * (bezug - einspeisung))%float.

(** Lines 121 to 140, after the total power was written. *)
Definition phase_step (sensor : string) (total_power : float) : M unit :=
  match Py.re_search_digit sensor with
  | Some phase_no => phase_branch phase_no total_power
  | None => ret tt
  end.

(** The body of the [try] block. *)
Definition update_body (sensor payload : string) : M unit :=
  value <~ parse payload;
  data_set sensor value;;
  forward_and_derive sensor value.

(** The [except] clauses. *)
Definition update_handler (sensor payload : string) (e : exn) : M unit :=
  match e with
  | KeyError => emit WarnKeyError
  | ValueError =>
      match Py.decode payload with
      | Some s =>
          if decide (s = "unavailable") then emit (WarnUnavailable sensor)
          else raise ValueError
      | None => raise ValueError
      end
  | ZeroDivisionError => raise ZeroDivisionError
  end.

(** [Meter.update(topic, payload)] *)
Definition update (topic payload : string) : M unit :=
  let sensor := Py.drop_last6 topic in
  try_except (update_body sensor payload) (update_handler sensor payload).

(** The bridge delivers messages one after the other; whatever a call
    raises, the next message meets the object as that call left it. *)
Definition deliver (st : Meter * list event) (msg : string * string) : Meter * list event :=
  let '(r, m', w) := update msg.1 msg.2 st.1 in (m', st.2 ++ w).

Definition run (msgs : list (string * string)) (m : Meter) : Meter * list event :=
  foldl deliver (m, []) msgs.

(** The sensor key a topic names. *)
Definition sensor_of (topic : string) : string := Py.drop_last6 topic.

(** Last write wins: the reading of [key] after [msgs], when it was
    [current] before.  An "unavailable" payload is skipped; a payload
    that is a number replaces the reading of the sensor it is for. *)
Fixpoint last_numeric (key : string) (msgs : list (string * string))
    (current : option float) : option float :=
  match msgs with
  | [] => current
  | msg :: rest =>
      last_numeric key rest
        (if decide (msg.2 = "unavailable") then current
         else if decide (sensor_of msg.1 = key) then
           match float_of_payload msg.2 with
           | Some v => Some v
           | None => current
           end
         else current)
  end.

End Update.

(** ** A float parser to run the engine on concrete messages

    [update] is parametrised by the runtime's [float()].  To evaluate it on
    concrete payloads, [Decimal.float_of_str] implements the part of
    [float()] made of an optional sign followed by [nan], [inf],
    [infinity], or by digits with an optional fractional part, of at most
    fifteen digits all together.  Such a literal is [n / 10^k] with [n] and
    [10^k] exactly representable in binary64, so that the correctly rounded
    quotient of the two is the correctly rounded value of the literal, as
    [float()] returns it.  Whatever else [float()] accepts (exponents,
    surrounding white space, underscores, longer literals) is rejected
    here. *)
Module Decimal.

Definition digit_value (c : ascii) : option Z :=
  if Py.is_digit c then Some (Z.of_nat (nat_of_ascii c) - 48)%Z else None.

(** Reads the digits at the head of [s] into [acc], counting them. *)
Fixpoint digits (s : string) (acc : Z) (count : nat) : Z * nat * string :=
  match s with
  | EmptyString => (acc, count, s)
  | String c s' =>
      match digit_value c with
      | Some d => digits s' (10 * acc + d)%Z (S count)
      | None => (acc, count, s)
      end
  end.

Definition quotient (n : Z) (k total : nat) : option float :=
  if decide (0 < total ≤ 15)%nat
  then Some (of_uint63 (of_Z n) / of_uint63 (of_Z (10 ^ Z.of_nat k)))%float
  else None.

Definition unsigned (s : string) : option float :=
  if decide (s = "nan") then Some nan
  else if decide (s = "inf" ∨ s = "infinity") then Some infinity
  else
    let '(n, c1, rest) := digits s 0 0 in
    match rest with
    | EmptyString => quotient n 0 c1
    | String "." frac =>
        let '(n', c2, rest') := digits frac n 0 in
        match rest' with
        | EmptyString => quotient n' c2 (c1 + c2)
        | _ => None
        end
    | _ => None
    end.

Definition float_of_str (s : string) : option float :=
  match s with
  | String "-" s' => PrimFloat.opp <$> unsigned s'
  | String "+" s' => unsigned s'
  | _ => unsigned s
  end.

End Decimal.

(** ** Observations *)

(** The values a run of events publishes to [path], in order. *)
Definition published (path : string) (w : list event) : list float :=
  omap (λ e, match e with
             | Publish p v => if decide (p = path) then Some v else None
             | _ => None
             end) w.

(** What [set_path path value] emits when the path holds [old]. *)
Definition gate (path : string) (old : pyval) (value : float) : list event :=
  if Py.ne old value then [Publish path value] else [].

(** What the path holds after [set_path path value]. *)
Definition held (old : pyval) (value : float) : pyval :=
  if Py.ne old value then PyFloat value else old.

Definition gate_state (path : string) (old : pyval) (value : float) (m : Meter) : Meter :=
  if Py.ne old value then with_service (insert path (PyFloat value)) m else m.

(** The object and the events after the forwarding step of [update], lines
    112 and 113, wherever that step does not raise. *)
Definition forwarded (sensor : string) (value : float) (m : Meter) : Meter * list event :=
  match data_map !! sensor with
  | Some path =>
      match service m !! path with
      | Some old => (gate_state path old value m, gate path old value)
      | None => (m, [])
      end
  | None => (m, [])
  end.

(** The six per-phase readings. *)
Definition phase_sensors : list string :=
  [ "hass/sensor/netz_i1"; "hass/sensor/netz_u1";
    "hass/sensor/netz_i2"; "hass/sensor/netz_u2";
    "hass/sensor/netz_i3"; "hass/sensor/netz_u3" ].

(** The sum of the apparent powers of the three phases, as line 123
    computes it. *)
Definition apparent_sum (i1 u1 i2 u2 i3 u3 : float) : float :=
  (i1 * u1 + i2 * u2 + i3 * u3)%float.

(** The six per-phase readings of a dictionary, when all are there. *)
Record readings := mkReadings {
  r_i1 : float; r_u1 : float;
  r_i2 : float; r_u2 : float;
  r_i3 : float; r_u3 : float
}.

Definition readings_of (d : gmap string float) : option readings :=
  i1 ← d !! "hass/sensor/netz_i1"; u1 ← d !! "hass/sensor/netz_u1";
  i2 ← d !! "hass/sensor/netz_i2"; u2 ← d !! "hass/sensor/netz_u2";
  i3 ← d !! "hass/sensor/netz_i3"; u3 ← d !! "hass/sensor/netz_u3";
  Some (mkReadings i1 u1 i2 u2 i3 u3).

Definition sum_of (r : readings) : float :=
  apparent_sum (r_i1 r) (r_u1 r) (r_i2 r) (r_u2 r) (r_i3 r) (r_u3 r).

(** The power line 134 derives for a phase with current [i] and voltage
    [u]. *)
Definition phase_power_of (total sum i u : float) : float :=
  (total / sum * i * u)%float.

(** The output paths of the per-phase powers. *)
Definition power_paths : list string :=
  [ "/Ac/L1/Power"; "/Ac/L2/Power"; "/Ac/L3/Power" ].

(** The twelve paths [update] may write to. *)
Definition output_paths : list string :=
  [ "/Ac/Energy/Forward"; "/Ac/Energy/Reverse";
    "/Ac/L1/Current"; "/Ac/L1/Voltage"; "/Ac/L1/Power";
    "/Ac/L2/Current"; "/Ac/L2/Voltage"; "/Ac/L2/Power";
    "/Ac/L3/Current"; "/Ac/L3/Voltage"; "/Ac/L3/Power";
    "/Ac/Power" ].

(** The service of [m] has every output path registered. *)
Definition ready (m : Meter) : Prop :=
  Forall (λ p, is_Some (service m !! p)) output_paths.


(** ** Statements about runs of messages *)

(** Equality up to a relative error of [1e-9], the binary64 number
    nearest to which is written out. *)
Definition within_tolerance (x y : float) : bool :=
  let magnitude := if PrimFloat.ltb (abs x) (abs y) then abs y else abs x in
  PrimFloat.leb (abs (x - y)) (0x1.12e0be826d695p-30 * magnitude).

(** The value last published to [path] among the events [w]. *)
Definition last_published (path : string) (w : list event) : option float :=
  last (published path w).

(** The service holds, at every path, the value last published to it
    among [w], and what the service [s0] held where nothing was. *)
Definition tracks (s0 : gmap string pyval) (m : Meter) (w : list event) : Prop :=
  ∀ path,
    service m !! path =
    match last_published path w with
    | Some x => Some (PyFloat x)
    | None => s0 !! path
    end.

(** A body that keeps [tracks], whatever was emitted before it. *)
Definition tracking {A} (s0 : gmap string pyval) (c : M A) : Prop :=
  ∀ m w0, tracks s0 m w0 → tracks s0 (c m).1.2 (w0 ++ (c m).2).

Definition T_bezug : string := "hass/sensor/netz_bezug/state".
Definition T_einspeisung : string := "hass/sensor/netz_einspeisung/state".

(** The readings are [va] and [vb] and [/Ac/Power] holds a value equal
    to the total power they give. *)
Definition settled (va vb : float) (m : Meter) : Prop :=
  ready m
  ∧ data m !! K_bezug = Some va
  ∧ data m !! K_einspeisung = Some vb
  ∧ ∃ q, service m !! P_power = Some q
       ∧ Py.ne q (total_power_of va vb) = false.

(** The engine as [main] creates it. *)
Definition fresh : Meter := init "localhost" "dbus-mqtt-meter.py" 40.

(** A topic of one of the six per-phase sensors. *)
Definition phase_topic (topic : string) : Prop :=
  Py.drop_last6 topic ∈ phase_sensors.

(** The power-balance readings of import 10.0 and export 2.0, then the
    six per-phase readings of 10.0 A and 230.0 V. *)
Definition scenario : list (string * string) :=
  [ (T_bezug, "10.0"); (T_einspeisung, "2.0");
    ("hass/sensor/netz_i1/state", "10.0"); ("hass/sensor/netz_u1/state", "230.0");
    ("hass/sensor/netz_i2/state", "10.0"); ("hass/sensor/netz_u2/state", "230.0");
    ("hass/sensor/netz_i3/state", "10.0"); ("hass/sensor/netz_u3/state", "230.0") ].

(** The scenario, the currents of phases 1 and 2 delivered once more, and
    then a new import reading. *)
Definition stale_scenario : list (string * string) :=
  scenario ++
  [ ("hass/sensor/netz_i1/state", "10.0"); ("hass/sensor/netz_i2/state", "10.0");
    (T_bezug, "20.0") ].

(** Three phases without current, at 230.0 V. *)
Definition idle_phases : list (string * string) :=
  [ ("hass/sensor/netz_i1/state", "0.0"); ("hass/sensor/netz_u1/state", "230.0");
    ("hass/sensor/netz_i2/state", "0.0"); ("hass/sensor/netz_u2/state", "230.0");
    ("hass/sensor/netz_i3/state", "0.0") ].

Definition idle_all : list (string * string) :=
  idle_phases ++ [ ("hass/sensor/netz_u3/state", "230.0") ].

Section Statements.

Variable py_float : string → option float.

(** The object the engine starts with, and the one [msgs] leave. *)
Variables (host file : string) (inst : Z).

Definition after (msgs : list (string * string)) : Meter * list event :=
  run py_float msgs (init host file inst).

(** The call returns and publishes neither a total power nor the power
    of a phase. *)
Definition no_power_published (msgs : list (string * string))
    (topic payload : string) : Prop :=
  let out := update py_float topic payload (after msgs).1 in
  out.1.1 = Ok tt
  ∧ published P_power out.2 = []
  ∧ ∀ path, path ∈ power_paths → published path out.2 = [].

(** The scenario publishes a total power of 8000.0 W and, to each of the
    three phases, a power of about 8000.0/3 W, the three summing to
    about 8000.0 W. *)
Definition scenario_expectation : Prop :=
  let w := (after scenario).2 in
  8000%float ∈ published P_power w
  ∧ ∃ p1 p2 p3,
      p1 ∈ published "/Ac/L1/Power" w
      ∧ p2 ∈ published "/Ac/L2/Power" w
      ∧ p3 ∈ published "/Ac/L3/Power" w
      ∧ within_tolerance p1 (8000 / 3) = true
      ∧ within_tolerance p2 (8000 / 3) = true
      ∧ within_tolerance p3 (8000 / 3) = true
      ∧ within_tolerance (p1 + p2 + p3) 8000 = true.

(** All three phases have an apparent power above zero. *)
Definition phases_positive (m : Meter) : Prop :=
  ∃ r, readings_of (data m) = Some r
    ∧ PrimFloat.ltb 0 (r_i1 r * r_u1 r) = true
    ∧ PrimFloat.ltb 0 (r_i2 r * r_u2 r) = true
    ∧ PrimFloat.ltb 0 (r_i3 r * r_u3 r) = true.

(** The phase powers last published sum to the total power last
    published. *)
Definition phase_sum_matches (w : list event) : Prop :=
  ∃ p1 p2 p3 t,
    last_published "/Ac/L1/Power" w = Some p1
    ∧ last_published "/Ac/L2/Power" w = Some p2
    ∧ last_published "/Ac/L3/Power" w = Some p3
    ∧ last_published P_power w = Some t
    ∧ within_tolerance (p1 + p2 + p3) t = true.

(** Import [a] and export [b] delivered to [m], and then once more: what
    the second delivery emits. *)
Definition redelivery (m : Meter) (a b : string) : list event :=
  let pair := [ (T_bezug, a); (T_einspeisung, b) ] in
  (run py_float pair (run py_float pair m).1).2.

End Statements.

(** ** The bridge *)

(** The items of [data_map], in the order of the source. *)
Definition data_map_items : list (string * string) :=
  [ ("hass/sensor/zahlerstand_bezug", "/Ac/Energy/Forward");
    ("hass/sensor/zahlerstand_einspeisung", "/Ac/Energy/Reverse");
    ("hass/sensor/netz_i1", "/Ac/L1/Current");
    ("hass/sensor/netz_u1", "/Ac/L1/Voltage");
    ("hass/sensor/netz_i2", "/Ac/L2/Current");
    ("hass/sensor/netz_u2", "/Ac/L2/Voltage");
    ("hass/sensor/netz_i3", "/Ac/L3/Current");
    ("hass/sensor/netz_u3", "/Ac/L3/Voltage") ].

(** [Bridge._on_connect]: the calls [self._client.subscribe(topic, 0)] it
    makes, in order. *)
Definition on_connect : list (string * Z) :=
  let sensor_list := data_map_items.*1 ++ [K_bezug; K_einspeisung] in
  (λ topic, (topic +:+ "/state", 0%Z)) <$> sensor_list.

(** The paths [update] passes to [set_path]. *)
Definition written_path (path : string) : Prop :=
  (∃ sensor, data_map !! sensor = Some path)
  ∨ path = P_power
  ∨ ∃ phase_no, path = "/Ac/L" +:+ phase_no +:+ "/Power".

(** An event that publishes, if at all, to one of the output paths. *)
Definition to_output (ev : event) : Prop :=
  match ev with
  | Publish p _ => p ∈ output_paths
  | _ => True
  end.

(** The last character of a string. *)
Fixpoint last_char (s : string) : option ascii :=
  match s with
  | EmptyString => None
  | String c EmptyString => Some c
  | String _ s' => last_char s'
  end.

(** Lines 115 to 140: what [forward_and_derive] does after forwarding. *)
Definition derive (sensor : string) : M unit :=
  (bezug <~ data_get K_bezug;
   einspeisung <~ data_get K_einspeisung;
   let total_power := (1000.0 * (bezug - einspeisung))%float in
   set_path P_power total_power;;
   match Py.re_search_digit sensor with
   | Some phase_no => phase_branch phase_no total_power
   | None => ret tt
   end)%meter.

(** An event that publishes, if at all, a value that is not NaN. *)
Definition publishes_number (ev : event) : Prop :=
  match ev with
  | Publish _ x => PrimFloat.eqb x x = true
  | _ => True
  end.

(** ** The name of the service *)

(** [format(n, "02d")]: the decimal digits of [n], with its sign when it
    is negative, padded with zeros to a width of two. *)
Definition format_02d (n : Z) : string :=
  let s := pretty n in
  if (String.length s <? 2)%nat then "0" +:+ s else s.

(** ["{}.mqtt_{:02d}".format(base, instance)], the name [__init__] gives
    the service on the bus. *)
Definition service_name (base : string) (inst : Z) : string :=
  base +:+ ".mqtt_" +:+ format_02d inst.

(** ** Exact values and the accuracy of the derivation *)

(** The rational number a float stands for; infinities and NaN stand for
    none. *)
Definition value (x : float) : option Q :=
  match Prim2SF x with
  | S754_zero _ => Some 0%Q
  | S754_finite s m e => Some (inject_Z (if s then Z.neg m else Z.pos m) * 2 ^ e)%Q
  | S754_infinity _ | S754_nan => None
  end.

(** [y] is within the relative error [k] of [e]. *)
Definition near (k y e : Q) : Prop := (Qabs (y - e) <= k * Qabs e)%Q.

(** The unit roundoff of binary64, [2^-53]: the relative error of an
    operation rounded to nearest that neither overflows nor underflows. *)
Definition unit_roundoff : Q := 1 # 9007199254740992.

(** The relative error two roundings in a row leave, and three. *)
Definition two_roundings : Q :=
  (unit_roundoff + unit_roundoff + unit_roundoff * unit_roundoff)%Q.

Definition three_roundings : Q :=
  (two_roundings + unit_roundoff + two_roundings * unit_roundoff)%Q.

(** The float [z] has a value, within the unit roundoff of [exact]. *)
Definition rounds (exact : Q) (z : float) : bool :=
  match value z with
  | Some c => Qle_bool (Qabs (c - exact)) (unit_roundoff * Qabs exact)
  | None => false
  end.

(** [x] and [y] have values, and [z] rounds what [op] makes of them. *)
Definition rounded (op : Q → Q → Q) (x y z : float) : bool :=
  match value x, value y with
  | Some a, Some b => rounds (op a b) z
  | _, _ => false
  end.

Definition accurate_mul (x y : float) : bool := rounded Qmult x y (x * y).
Definition accurate_add (x y : float) : bool := rounded Qplus x y (x + y).
Definition accurate_div (x y : float) : bool := rounded Qdiv x y (x / y).

(** [x] has a value above zero. *)
Definition positive (x : float) : bool :=
  match value x with
  | Some a => negb (Qle_bool a 0)
  | None => false
  end.

(** The two products of line 134 are accurate. *)
Definition accurate_phase (factor i u : float) : bool :=
  accurate_mul factor i && accurate_mul (factor * i) u.

(** Every operation of lines 123 to 138 on the readings [r] and the total
    power [total] is accurate, whichever the phase, and the three apparent
    powers are above zero. *)
Definition accurate_derivation (r : readings) (total : float) : bool :=
  let a1 := (r_i1 r * r_u1 r)%float in
  let a2 := (r_i2 r * r_u2 r)%float in
  let a3 := (r_i3 r * r_u3 r)%float in
  let factor := (total / sum_of r)%float in
  accurate_mul (r_i1 r) (r_u1 r) && accurate_mul (r_i2 r) (r_u2 r)
  && accurate_mul (r_i3 r) (r_u3 r)
  && positive a1 && positive a2 && positive a3
  && accurate_add a1 a2 && accurate_add (a1 + a2) a3
  && accurate_div total (sum_of r)
  && accurate_phase factor (r_i1 r) (r_u1 r)
  && accurate_phase factor (r_i2 r) (r_u2 r)
  && accurate_phase factor (r_i3 r) (r_u3 r).

(** The current and the voltage of phase [n] among the readings. *)
Definition phase_current (r : readings) (n : string) : float :=
  if decide (n = "1") then r_i1 r else if decide (n = "2") then r_i2 r else r_i3 r.

Definition phase_voltage (r : readings) (n : string) : float :=
  if decide (n = "1") then r_u1 r else if decide (n = "2") then r_u2 r else r_u3 r.

(** The power lines 123 to 138 derive for phase [n] from the readings [r]
    and the total power [total]. *)
Definition derived_power (r : readings) (total : float) (n : string) : float :=
  phase_power_of total (sum_of r) (phase_current r n) (phase_voltage r n).

(** The path holds a value that [set_path] takes for equal to [c]. *)
Definition holds_equal (m : Meter) (path : string) (c : float) : Prop :=
  ∃ h, service m !! path = Some h ∧ Py.ne h c = false.

(** The phase whose power [update] derives for a topic: the first digit of
    the sensor key. *)
Definition phase_of (topic : string) : option string :=
  Py.re_search_digit (sensor_of topic).

(** Among the messages there is one for each of the three phases. *)
Definition covers_phases (msgs : list (string * string)) : Prop :=
  ∀ n, n ∈ ["1"; "2"; "3"] → ∃ msg, msg ∈ msgs ∧ phase_of msg.1 = Some n.

(** The exact values of the phase powers last published sum to the exact
    value of the total power last published, up to [1e-9] of it. *)
Definition phase_sum_exact (w : list event) : Prop :=
  ∃ p1 p2 p3 t x1 x2 x3 xt,
    last_published "/Ac/L1/Power" w = Some p1
    ∧ last_published "/Ac/L2/Power" w = Some p2
    ∧ last_published "/Ac/L3/Power" w = Some p3
    ∧ last_published P_power w = Some t
    ∧ value p1 = Some x1 ∧ value p2 = Some x2 ∧ value p3 = Some x3
    ∧ value t = Some xt
    ∧ near (1 # 1000000000) (x1 + x2 + x3) xt.

Section Repeats.

Variable py_float : string → option float.

(** A message on a subscribed topic whose payload is the number the
    dictionary [d] holds for its sensor. *)
Definition repeats (d : gmap string float) (msg : string * string) : Prop :=
  msg.1 ∈ on_connect.*1
  ∧ ∃ v, float_of_payload py_float msg.2 = Some v ∧ d !! sensor_of msg.1 = Some v.

End Repeats.

(** ** The monad and [set_path] *)

Lemma bind_ret {A B} (a : A) (k : A → M B) m : bind (ret a) k m = k a m.
Proof. unfold bind, ret. by destruct (k a m) as [[r m2] w2]. Qed.

Lemma bind_Ok {A B} (c : M A) (k : A → M B) m a m1 w1 :
  c m = (Ok a, m1, w1) →
  bind c k m = (let '(r, m2, w2) := k a m1 in (r, m2, w1 ++ w2)).
Proof. intros H. unfold bind. by rewrite H. Qed.

Lemma bind_Raise {A B} (c : M A) (k : A → M B) m e m1 w1 :
  c m = (Raise e, m1, w1) → bind c k m = (Raise e, m1, w1).
Proof. intros H. unfold bind. by rewrite H. Qed.

Lemma set_path_eq path value m :
  set_path path value m =
  match service m !! path with
  | Some old => (Ok tt, gate_state path old value m, gate path old value)
  | None => (Raise KeyError, m, [])
  end.
Proof.
  unfold set_path, bind, service_get, gate_state, gate.
  destruct (service m !! path) as [old|] eqn:Hold; [|done].
  destruct (Py.ne old value); [|done].
  unfold service_set. by rewrite Hold.
Qed.

Lemma gate_state_data path old value m : data (gate_state path old value m) = data m.
Proof. unfold gate_state. by destruct (Py.ne old value). Qed.

Lemma gate_state_service path old value m p :
  service m !! path = Some old →
  service (gate_state path old value m) !! p =
  if decide (p = path) then Some (held old value) else service m !! p.
Proof.
  intros Hold. unfold gate_state, held.
  destruct (Py.ne old value); simpl.
  - rewrite lookup_insert. repeat case_decide; congruence.
  - case_decide; congruence.
Qed.

Lemma published_app path w1 w2 :
  published path (w1 ++ w2) = published path w1 ++ published path w2.
Proof. unfold published. apply omap_app. Qed.

Lemma published_gate path old value :
  published path (gate path old value) = if Py.ne old value then [value] else [].
Proof.
  unfold gate. destruct (Py.ne old value); [|done].
  unfold published. simpl. by rewrite decide_True.
Qed.

Lemma published_gate_ne path p old value :
  p ≠ path → published path (gate p old value) = [].
Proof.
  intros Hne. unfold gate. destruct (Py.ne old value); [|done].
  unfold published. simpl. by rewrite decide_False.
Qed.

(** ** Rules for [safe] *)

Section Safe.

Context (I : Meter → Prop) (E : exn → Prop) (Q : event → Prop).

Lemma safe_ret {A} (a : A) : safe I E Q (ret a).
Proof. intros m Hm. simpl. split_and!; [done | constructor | done]. Qed.

Lemma safe_raise {A} e : E e → safe I E Q (raise (A:=A) e).
Proof.
  intros He m Hm. simpl. split_and!; [done | constructor |].
  intros e' [= <-]. done.
Qed.

Lemma safe_emit ev : Q ev → safe I E Q (emit ev).
Proof. intros Hev m Hm. simpl. split_and!; [done | by repeat constructor | done]. Qed.

Lemma safe_lift {A} (r : result A) :
  (∀ e, r = Raise e → E e) → safe I E Q (lift_result r).
Proof. intros Hr m Hm. simpl. split_and!; [done | constructor | done]. Qed.

Lemma safe_data_get key : E KeyError → safe I E Q (data_get key).
Proof.
  intros He m Hm. unfold data_get.
  destruct (data m !! key); simpl; split_and!; try done; try constructor.
  intros e [= <-]. done.
Qed.

Lemma safe_set_path path value :
  E KeyError →
  (∀ m, I m → is_Some (service m !! path) →
     I (with_service (insert path (PyFloat value)) m) ∧ Q (Publish path value)) →
  safe I E Q (set_path path value).
Proof.
  intros He Hw m Hm. rewrite set_path_eq.
  destruct (service m !! path) as [old|] eqn:Hold; simpl.
  - unfold gate_state, gate. destruct (Hw m Hm) as [HI HQ]; [by rewrite Hold|].
    destruct (Py.ne old value); split_and!; try done;
      by repeat constructor.
  - split_and!; [done | constructor |]. intros e [= <-]. done.
Qed.

Lemma safe_bind {A B} (c : M A) (k : A → M B) :
  safe I E Q c → (∀ a, safe I E Q (k a)) → safe I E Q (bind c k).
Proof.
  intros Hc Hk m Hm. unfold bind.
  destruct (Hc m Hm) as (HI & HQ & HE).
  destruct (c m) as [[[a|e] m1] w1]; simpl in *;
    [|split_and!; [done..|]; intros e0 [= <-]; by apply HE].
  destruct (Hk a m1 HI) as (HI' & HQ' & HE').
  destruct (k a m1) as [[r m2] w2]; simpl in *.
  split_and!; [done | by apply Forall_app | done].
Qed.

Lemma safe_try {A} (E' : exn → Prop) (body : M A) (handler : exn → M A) :
  safe I E' Q body → (∀ e, E' e → safe I E Q (handler e)) →
  safe I E Q (try_except body handler).
Proof.
  intros Hb Hh m Hm. unfold try_except.
  destruct (Hb m Hm) as (HI & HQ & HE).
  destruct (body m) as [[[a|e] m1] w1]; simpl in *; [by split_and!|].
  destruct (Hh e (HE e eq_refl) m1 HI) as (HI' & HQ' & HE').
  destruct (handler e m1) as [[r m2] w2]; simpl in *.
  split_and!; [done | by apply Forall_app | done].
Qed.

End Safe.

Ltac safe_step :=
  first
    [ apply safe_set_path
    | apply safe_data_get
    | apply safe_emit
    | apply safe_raise
    | apply safe_lift
    | apply safe_ret
    | apply safe_bind; [|intros ?]
    | match goal with
      | |- safe _ _ _ (match ?x with _ => _ end) => destruct x
      | |- safe _ _ _ (if ?x then _ else _) => destruct x
      end ].

Lemma published_silent path w : Forall (silent_on path) w → published path w = [].
Proof.
  induction 1 as [|ev w Hev _ IH]; [done|].
  change (ev :: w) with ([ev] ++ w). rewrite published_app, IH, app_nil_r.
  destruct ev; simpl in *; [|done..].
  unfold published. simpl. by rewrite decide_False.
Qed.

Lemma phase_path_not_power phase_no : "/Ac/L" +:+ phase_no +:+ "/Power" ≠ P_power.
Proof. discriminate. Qed.

Lemma data_map_path sensor path :
  data_map !! sensor = Some path →
  path ∈ output_paths ∧ path ≠ P_power ∧ path ∉ power_paths.
Proof.
  intros H. apply elem_of_list_to_map_2 in H.
  repeat (apply elem_of_cons in H as [[= -> ->]|H];
    [split_and!;
       [ repeat first [apply list_elem_of_here | apply list_elem_of_further]
       | discriminate
       | intros Hin;
         repeat (apply elem_of_cons in Hin as [Hin|Hin]; [discriminate|]);
         by apply elem_of_nil in Hin ]|]).
  by apply elem_of_nil in H.
Qed.

Lemma power_not_phase : P_power ∉ power_paths.
Proof.
  intros Hin.
  repeat (apply elem_of_cons in Hin as [Hin|Hin]; [discriminate|]).
  by apply elem_of_nil in Hin.
Qed.

Lemma ready_lookup m path : ready m → path ∈ output_paths → is_Some (service m !! path).
Proof. intros Hr Hin. unfold ready in Hr. rewrite Forall_forall in Hr. by apply Hr. Qed.

Lemma ready_insert m path value :
  ready m → ready (with_service (insert path value) m).
Proof.
  unfold ready. intros Hr. eapply Forall_impl; [exact Hr|].
  intros p [x Hx]. simpl. rewrite lookup_insert. case_decide; eauto.
Qed.

(** ** Running a body step by step *)

Lemma bind_data_get {B} key (k : float → M B) m x :
  data m !! key = Some x → bind (data_get key) k m = k x m.
Proof.
  intros H. unfold bind, data_get. rewrite H.
  by destruct (k x m) as [[r m2] w2].
Qed.

Lemma bind_data_get_None {B} key (k : float → M B) m :
  data m !! key = None → bind (data_get key) k m = (Raise KeyError, m, []).
Proof. intros H. unfold bind, data_get. by rewrite H. Qed.

Lemma bind_set_path {B} path value (k : unit → M B) m old :
  service m !! path = Some old →
  bind (set_path path value) k m =
  (let '(r, m2, w2) := k tt (gate_state path old value m) in
   (r, m2, gate path old value ++ w2)).
Proof. intros H. unfold bind. by rewrite set_path_eq, H. Qed.

Lemma bind_lift_Ok {A B} (a : A) (k : A → M B) m : bind (lift_result (Ok a)) k m = k a m.
Proof. unfold bind, lift_result. by destruct (k a m) as [[r m2] w2]. Qed.

Lemma bind_lift_Raise {A B} e (k : A → M B) m :
  bind (lift_result (Raise e)) k m = (Raise e, m, []).
Proof. done. Qed.

(** *** The forwarding step *)

Lemma forwarded_data sensor value m : data (forwarded sensor value m).1 = data m.
Proof.
  unfold forwarded. repeat case_match; simpl; try done. apply gate_state_data.
Qed.

Lemma forwarded_service sensor value m p :
  (∀ path, data_map !! sensor = Some path → p ≠ path) →
  service (forwarded sensor value m).1 !! p = service m !! p.
Proof.
  intros Hp. unfold forwarded.
  destruct (data_map !! sensor) as [path|] eqn:Hpath; [|done].
  destruct (service m !! path) as [old|] eqn:Hold; [|done]. simpl.
  rewrite (gate_state_service _ old) by done.
  rewrite decide_False; [done|]. by apply Hp.
Qed.

Lemma forwarded_service_power sensor value m :
  service (forwarded sensor value m).1 !! P_power = service m !! P_power.
Proof.
  apply forwarded_service. intros path Hpath.
  apply data_map_path in Hpath as (_ & Hne & _). congruence.
Qed.

Lemma forwarded_silent sensor value m p :
  (∀ path, data_map !! sensor = Some path → p ≠ path) →
  published p (forwarded sensor value m).2 = [].
Proof.
  intros Hp. unfold forwarded.
  destruct (data_map !! sensor) as [path|] eqn:Hpath; [|done].
  destruct (service m !! path) as [old|] eqn:Hold; [|done]. simpl.
  apply published_gate_ne. intros ->. by eapply Hp.
Qed.

Lemma forwarded_silent_power sensor value m :
  published P_power (forwarded sensor value m).2 = [].
Proof.
  apply forwarded_silent. intros path Hpath.
  apply data_map_path in Hpath as (_ & Hne & _). congruence.
Qed.

Lemma forwarded_eq {B} sensor value (k : unit → M B) m :
  ready m →
  bind (match data_map !! sensor with
        | Some path => set_path path value
        | None => ret tt
        end) k m =
  (let '(r, m2, w2) := k tt (forwarded sensor value m).1 in
   (r, m2, (forwarded sensor value m).2 ++ w2)).
Proof.
  intros Hr. unfold forwarded.
  destruct (data_map !! sensor) as [path|] eqn:Hpath.
  - apply data_map_path in Hpath as (Hin & _).
    destruct (ready_lookup m path Hr Hin) as [old Hold].
    rewrite Hold. by apply bind_set_path.
  - simpl. by rewrite bind_ret; destruct (k tt m) as [[r m2] w2].
Qed.

(** *** The per-phase branch *)

Lemma readings_of_None d :
  readings_of d = None ↔ ∃ key, key ∈ phase_sensors ∧ d !! key = None.
Proof.
  unfold readings_of, phase_sensors. split.
  - intros H.
    repeat (match type of H with
            | context [?d' !! ?key] =>
                destruct (d' !! key) eqn:?; simpl in H;
                [|exists key; split; [set_solver|done]]
            end).
    done.
  - intros (key & Hin & Hnone).
    repeat (match goal with
            | |- context [d !! ?k] => destruct (d !! k) eqn:?; simpl; [|done]
            end).
    repeat (apply elem_of_cons in Hin as [->|Hin]; [congruence|]).
    by apply elem_of_nil in Hin.
Qed.

Lemma phase_branch_missing n total m :
  readings_of (data m) = None → phase_branch n total m = (Raise KeyError, m, []).
Proof.
  unfold readings_of, phase_branch. intros H.
  repeat (match type of H with
          | context [data m !! ?key] =>
              destruct (data m !! key) eqn:Hkey; simpl in H;
              [rewrite (bind_data_get key _ _ _ Hkey); clear Hkey
              |by rewrite bind_data_get_None]
          end).
  done.
Qed.

Lemma phase_branch_readings n total m r :
  readings_of (data m) = Some r →
  phase_branch n total m =
  bind (lift_result (Py.truediv total (sum_of r)))
    (λ factor,
       bind (data_get ("hass/sensor/netz_i" +:+ n)) (λ i,
       bind (data_get ("hass/sensor/netz_u" +:+ n)) (λ u,
       set_path ("/Ac/L" +:+ n +:+ "/Power") (factor * i * u)%float))) m.
Proof.
  unfold readings_of, phase_branch. intros H.
  repeat (match type of H with
          | context [data m !! ?key] =>
              destruct (data m !! key) eqn:Hkey; simpl in H; [|done];
              rewrite (bind_data_get key _ _ _ Hkey); clear Hkey
          end).
  by injection H as <-.
Qed.

Lemma phase_branch_zero n total m r :
  readings_of (data m) = Some r →
  PrimFloat.eqb (sum_of r) 0 = true →
  phase_branch n total m = (Raise ZeroDivisionError, m, []).
Proof.
  intros Hr Hz. rewrite (phase_branch_readings _ _ _ r) by done.
  unfold Py.truediv. by rewrite Hz.
Qed.

Lemma phase_branch_publish n total m r i u old :
  readings_of (data m) = Some r →
  PrimFloat.eqb (sum_of r) 0 = false →
  data m !! ("hass/sensor/netz_i" +:+ n) = Some i →
  data m !! ("hass/sensor/netz_u" +:+ n) = Some u →
  service m !! ("/Ac/L" +:+ n +:+ "/Power") = Some old →
  let path := "/Ac/L" +:+ n +:+ "/Power" in
  let power := phase_power_of total (sum_of r) i u in
  phase_branch n total m = (Ok tt, gate_state path old power m, gate path old power).
Proof.
  intros Hr Hz Hi Hu Hold path power.
  rewrite (phase_branch_readings _ _ _ r) by done.
  unfold Py.truediv. rewrite Hz, bind_lift_Ok.
  rewrite (bind_data_get _ _ _ i), (bind_data_get _ _ _ u) by done.
  by rewrite set_path_eq, Hold.
Qed.

(** ** The service tracks what was published *)

Lemma last_published_publish path w p v :
  last_published path (w ++ [Publish p v]) =
  if decide (p = path) then Some v else last_published path w.
Proof.
  unfold last_published. rewrite published_app.
  unfold published at 2. simpl. case_decide.
  - by rewrite last_snoc.
  - by rewrite app_nil_r.
Qed.

Section Tracking.

Variable s0 : gmap string pyval.

Lemma tracking_ret {A} (a : A) : tracking s0 (ret a).
Proof. intros m w0 H. simpl. by rewrite app_nil_r. Qed.

Lemma tracking_raise {A} e : tracking s0 (raise (A:=A) e).
Proof. intros m w0 H. simpl. by rewrite app_nil_r. Qed.

Lemma tracking_lift {A} (r : result A) : tracking s0 (lift_result r).
Proof. intros m w0 H. simpl. by rewrite app_nil_r. Qed.

Lemma tracking_data_get key : tracking s0 (data_get key).
Proof.
  intros m w0 H. unfold data_get.
  destruct (data m !! key); simpl; by rewrite app_nil_r.
Qed.

Lemma tracking_data_set key value : tracking s0 (data_set key value).
Proof. intros m w0 H. simpl. by rewrite app_nil_r. Qed.

Lemma tracking_warning ev :
  (∀ p v, ev ≠ Publish p v) → tracking s0 (emit ev).
Proof.
  intros Hev m w0 H path. simpl. rewrite (H path).
  unfold last_published. rewrite published_app.
  destruct ev as [p v| |]; [by destruct (Hev p v)|..]; by rewrite app_nil_r.
Qed.

Lemma tracking_set_path path value : tracking s0 (set_path path value).
Proof.
  intros m w0 H. rewrite set_path_eq.
  destruct (service m !! path) as [old|] eqn:Hold; simpl;
    [|by rewrite app_nil_r].
  unfold gate_state, gate. destruct (Py.ne old value); [|by rewrite app_nil_r].
  intros q. simpl. rewrite last_published_publish, lookup_insert.
  case_decide; [done|]. apply H.
Qed.

Lemma tracking_bind {A B} (c : M A) (k : A → M B) :
  tracking s0 c → (∀ a, tracking s0 (k a)) → tracking s0 (bind c k).
Proof.
  intros Hc Hk m w0 H. unfold bind. specialize (Hc m w0 H).
  destruct (c m) as [[[a|e] m1] w1]; simpl in *; [|done].
  specialize (Hk a m1 _ Hc).
  destruct (k a m1) as [[r m2] w2]; simpl in *. by rewrite app_assoc.
Qed.

Lemma tracking_try {A} (body : M A) (handler : exn → M A) :
  tracking s0 body → (∀ e, tracking s0 (handler e)) →
  tracking s0 (try_except body handler).
Proof.
  intros Hb Hh m w0 H. unfold try_except. specialize (Hb m w0 H).
  destruct (body m) as [[[a|e] m1] w1]; simpl in *; [done|].
  specialize (Hh e m1 _ Hb).
  destruct (handler e m1) as [[r m2] w2]; simpl in *. by rewrite app_assoc.
Qed.

End Tracking.

Ltac tracking_step :=
  first
    [ apply tracking_set_path
    | apply tracking_data_get
    | apply tracking_data_set
    | apply tracking_warning; discriminate
    | apply tracking_raise
    | apply tracking_lift
    | apply tracking_ret
    | apply tracking_bind; [|intros ?]
    | apply tracking_try; [|intros ?]
    | match goal with
      | |- tracking _ (match ?x with _ => _ end) => destruct x
      | |- tracking _ (if ?x then _ else _) => destruct x
      end ].

Section Properties.

Variable py_float : string → option float.

(** [float("unavailable")] raises [ValueError]. *)
Hypothesis py_float_unavailable : py_float "unavailable" = None.

Lemma float_of_payload_unavailable : float_of_payload py_float "unavailable" = None.
Proof using py_float_unavailable. exact py_float_unavailable. Qed.

Lemma float_of_payload_decode payload v :
  float_of_payload py_float payload = Some v → Py.decode payload = Some payload.
Proof.
  unfold float_of_payload, Py.decode.
  by destruct (Py.utf8_run Py.Boundary payload).
Qed.

(** *** Payloads that are not numbers *)

Lemma update_not_number topic payload m :
  float_of_payload py_float payload = None →
  update py_float topic payload m =
  if decide (payload = "unavailable")
  then (Ok tt, m, [WarnUnavailable (sensor_of topic)])
  else (Raise ValueError, m, []).
Proof.
  intros Hnone.
  unfold update, try_except, update_body, parse.
  rewrite Hnone. rewrite (bind_Raise _ _ m ValueError m []); [|done].
  unfold update_handler, Py.decode.
  destruct (Py.utf8_run Py.Boundary payload) eqn:Hutf.
  - by destruct (decide (payload = "unavailable")).
  - rewrite decide_False; [done|]. intros ->. discriminate Hutf.
Qed.

(** *** Payloads that are numbers *)

Lemma update_number topic payload v m :
  float_of_payload py_float payload = Some v →
  update py_float topic payload m =
  try_except (forward_and_derive (sensor_of topic) v)
    (update_handler (sensor_of topic) payload)
    (with_data (insert (sensor_of topic) v) m).
Proof.
  intros Hv. unfold update, try_except, update_body, parse, sensor_of.
  rewrite Hv, bind_ret. unfold bind at 1. unfold data_set.
  by destruct (forward_and_derive _ v _) as [[[[]|e] m1] w1].
Qed.

(** Nothing after the store raises [ValueError]; what is raised there is
    a [KeyError] or a [ZeroDivisionError]. *)
Lemma forward_and_derive_safe (I : Meter → Prop) sensor value :
  (∀ m path x, I m → is_Some (service m !! path) →
     I (with_service (insert path (PyFloat x)) m)) →
  safe I (λ e, e ≠ ValueError) (λ _, True) (forward_and_derive sensor value).
Proof.
  intros HI. unfold forward_and_derive, phase_branch.
  repeat safe_step; try done; try (intros; split; [by apply HI | done]).
  unfold Py.truediv. intros e. by case_match; intros [= <-].
Qed.

Lemma update_handler_safe (I : Meter → Prop) (Q : event → Prop) sensor payload e :
  Q WarnKeyError → e ≠ ValueError →
  safe I (λ e, e = ZeroDivisionError) Q (update_handler sensor payload e).
Proof. intros HQ He. destruct e; [|done|]; simpl; by safe_step. Qed.

Lemma phase_step_safe (I : Meter → Prop) (Q : event → Prop) sensor total :
  (∀ n m x, I m → is_Some (service m !! ("/Ac/L" +:+ n +:+ "/Power")) →
     I (with_service (insert ("/Ac/L" +:+ n +:+ "/Power") (PyFloat x)) m)
     ∧ Q (Publish ("/Ac/L" +:+ n +:+ "/Power") x)) →
  safe I (λ e, e ≠ ValueError) Q (phase_step sensor total).
Proof.
  intros HI. unfold phase_step, phase_branch.
  repeat safe_step; try done; try (intros; by apply HI).
  unfold Py.truediv. intros e. by case_match; intros [= <-].
Qed.

(** The last step with the handlers around it: it writes only the power
    path of a phase and raises only [ZeroDivisionError]. *)
Lemma handled_phase_step_safe (I : Meter → Prop) (Q : event → Prop) sensor payload total :
  (∀ n m x, I m → is_Some (service m !! ("/Ac/L" +:+ n +:+ "/Power")) →
     I (with_service (insert ("/Ac/L" +:+ n +:+ "/Power") (PyFloat x)) m)
     ∧ Q (Publish ("/Ac/L" +:+ n +:+ "/Power") x)) →
  Q WarnKeyError →
  safe I (λ e, e = ZeroDivisionError) Q
    (try_except (phase_step sensor total) (update_handler sensor payload)).
Proof.
  intros HI HQ. eapply safe_try; [by apply phase_step_safe|].
  intros e He. by apply update_handler_safe.
Qed.

Lemma forward_and_derive_eq sensor v m b e old :
  ready m →
  data m !! K_bezug = Some b → data m !! K_einspeisung = Some e →
  service m !! P_power = Some old →
  forward_and_derive sensor v m =
  (let fw := forwarded sensor v m in
   let total := total_power_of b e in
   let '(r, m4, w4) := phase_step sensor total (gate_state P_power old total fw.1) in
   (r, m4, fw.2 ++ gate P_power old total ++ w4)).
Proof.
  intros Hr Hb He Hold. unfold forward_and_derive.
  rewrite forwarded_eq by done.
  rewrite (bind_data_get K_bezug _ _ b) by by rewrite forwarded_data.
  rewrite (bind_data_get K_einspeisung _ _ e) by by rewrite forwarded_data.
  rewrite (bind_set_path _ _ _ _ old) by by rewrite forwarded_service_power.
  fold (phase_step sensor (1000 * (b - e))). fold (total_power_of b e). simpl.
  by destruct (phase_step _ _ _) as [[r m4] w4].
Qed.

(** [update] with a number, on an object whose paths are registered and
    whose two power readings are there once the number is stored. *)
Lemma update_number_ready topic payload v m b e old :
  let sensor := sensor_of topic in
  let d := <[sensor := v]> (data m) in
  ready m →
  float_of_payload py_float payload = Some v →
  d !! K_bezug = Some b → d !! K_einspeisung = Some e →
  service m !! P_power = Some old →
  update py_float topic payload m =
  (let fw := forwarded sensor v (with_data (insert sensor v) m) in
   let total := total_power_of b e in
   let '(r, m4, w4) :=
     try_except (phase_step sensor total) (update_handler sensor payload)
       (gate_state P_power old total fw.1) in
   (r, m4, fw.2 ++ gate P_power old total ++ w4)).
Proof.
  intros sensor d Hr Hv Hb He Hold.
  rewrite (update_number _ _ v) by done. fold sensor.
  unfold try_except at 1.
  rewrite (forward_and_derive_eq _ _ _ b e old); [|done..]. simpl.
  unfold try_except.
  destruct (phase_step _ _ _) as [[[[]|e'] m4] w4]; simpl; [done|].
  destruct (update_handler _ _ _ _) as [[r m5] w5].
  by rewrite <- !app_assoc.
Qed.

(** The total power goes through the gate of [set_path], and nothing
    else of the call writes to its path. *)
Lemma total_power_gate topic payload v m b e old :
  let sensor := sensor_of topic in
  let d := <[sensor := v]> (data m) in
  let total := total_power_of b e in
  ready m →
  float_of_payload py_float payload = Some v →
  d !! K_bezug = Some b → d !! K_einspeisung = Some e →
  service m !! P_power = Some old →
  published P_power (update py_float topic payload m).2 =
    (if Py.ne old total then [total] else [])
  ∧ service (update py_float topic payload m).1.2 !! P_power = Some (held old total).
Proof.
  intros sensor d total Hr Hv Hb He Hold.
  rewrite (update_number_ready _ _ v m b e old) by done. fold sensor total.
  set (fw := forwarded sensor v _).
  set (m3 := gate_state P_power old total fw.1).
  assert (Hm3 : service m3 !! P_power = Some (held old total)).
  { unfold m3. rewrite (gate_state_service _ old).
    - by rewrite decide_True.
    - unfold fw. by rewrite forwarded_service_power. }
  assert (Hsafe : safe (λ m', service m' !! P_power = Some (held old total))
    (λ e, e = ZeroDivisionError) (silent_on P_power)
    (try_except (phase_step sensor total) (update_handler sensor payload))).
  { apply handled_phase_step_safe; [|done].
    intros n m' x Hm' _. split; [|apply phase_path_not_power]. simpl.
    rewrite lookup_insert_ne; [done|apply phase_path_not_power]. }
  destruct (Hsafe m3 Hm3) as (HI & HQ & _). unfold m3 in *.
  destruct (try_except _ _ _) as [[r m4] w4]. simpl in *. split; [|done].
  rewrite !published_app, published_gate, (published_silent _ w4) by done.
  unfold fw. by rewrite forwarded_silent_power, app_nil_r.
Qed.


Lemma derive_handled_safe (I : Meter → Prop) sensor payload value :
  (∀ m path x, I m → is_Some (service m !! path) →
     I (with_service (insert path (PyFloat x)) m)) →
  safe I (λ e, e = ZeroDivisionError) (λ _, True)
    (try_except (forward_and_derive sensor value) (update_handler sensor payload)).
Proof.
  intros HI. eapply safe_try; [by apply forward_and_derive_safe|].
  intros e He. by apply update_handler_safe.
Qed.

(** An invariant that storing a reading and writing a registered path
    keep is kept by [update]. *)
Lemma update_invariant (I : Meter → Prop) topic payload m :
  (∀ m key x, I m → I (with_data (insert key x) m)) →
  (∀ m path x, I m → is_Some (service m !! path) →
     I (with_service (insert path (PyFloat x)) m)) →
  I m → I (update py_float topic payload m).1.2.
Proof.
  intros Hd Hs Hm.
  destruct (float_of_payload py_float payload) as [v|] eqn:Hv.
  - rewrite (update_number _ _ v) by done.
    by apply (derive_handled_safe I (sensor_of topic) payload v Hs), Hd.
  - rewrite update_not_number by done. by case_decide.
Qed.

Lemma update_ready topic payload m :
  ready m → ready (update py_float topic payload m).1.2.
Proof.
  apply (update_invariant ready); [done|].
  intros m' path x Hr _. by apply ready_insert.
Qed.

Lemma update_data topic payload m :
  data (update py_float topic payload m).1.2 =
  match float_of_payload py_float payload with
  | Some v => <[sensor_of topic := v]> (data m)
  | None => data m
  end.
Proof.
  destruct (float_of_payload py_float payload) as [v|] eqn:Hv.
  - rewrite (update_number _ _ v) by done.
    by apply (derive_handled_safe
      (λ m', data m' = <[sensor_of topic := v]> (data m)) (sensor_of topic) payload v).
  - rewrite update_not_number by done. by case_decide.
Qed.

(** [update] raises nothing but [ValueError], for a payload that is
    neither a number nor "unavailable", and [ZeroDivisionError], for a
    payload that is a number. *)
Lemma update_raises topic payload m e :
  (update py_float topic payload m).1.1 = Raise e →
  (e = ValueError ∧ float_of_payload py_float payload = None ∧ payload ≠ "unavailable")
  ∨ (e = ZeroDivisionError ∧ is_Some (float_of_payload py_float payload)).
Proof.
  destruct (float_of_payload py_float payload) as [v|] eqn:Hv.
  - rewrite (update_number _ _ v) by done. intros Hr. right. split; [|by eauto].
    by eapply (derive_handled_safe (λ _, True) (sensor_of topic) payload v).
  - rewrite update_not_number by done. case_decide; [done|].
    intros [= <-]. by left.
Qed.

Lemma update_tracking s0 topic payload : tracking s0 (update py_float topic payload).
Proof.
  unfold update, update_body, parse, forward_and_derive, phase_branch,
    update_handler.
  repeat tracking_step.
Qed.

(** *** Sequences of messages *)

Lemma deliver_meter st msg :
  (deliver py_float st msg).1 = (update py_float msg.1 msg.2 st.1).1.2.
Proof. unfold deliver. by destruct (update _ _ _ _) as [[r m'] w]. Qed.

Lemma deliver_events st msg :
  (deliver py_float st msg).2 = st.2 ++ (update py_float msg.1 msg.2 st.1).2.
Proof. unfold deliver. by destruct (update _ _ _ _) as [[r m'] w]. Qed.

Lemma run_snoc msgs msg m :
  run py_float (msgs ++ [msg]) m = deliver py_float (run py_float msgs m) msg.
Proof. unfold run. by rewrite foldl_app. Qed.

(** Whatever holds of [m] and is kept by each [update] holds after the
    messages. *)
Lemma run_invariant (I : Meter → Prop) msgs m :
  (∀ m topic payload, I m → I (update py_float topic payload m).1.2) →
  I m → I (run py_float msgs m).1.
Proof.
  intros Hstep Hm. induction msgs as [|msg msgs IH] using rev_ind; [done|].
  rewrite run_snoc, deliver_meter. by apply Hstep.
Qed.

Lemma run_tracks msgs m :
  tracks (service m) (run py_float msgs m).1 (run py_float msgs m).2.
Proof.
  induction msgs as [|msg msgs IH] using rev_ind; [done|].
  rewrite run_snoc, deliver_meter, deliver_events.
  by apply update_tracking.
Qed.

Lemma run_ready msgs m : ready m → ready (run py_float msgs m).1.
Proof. apply run_invariant. intros. by apply update_ready. Qed.

Lemma last_numeric_snoc key msgs msg current :
  last_numeric py_float key (msgs ++ [msg]) current =
  last_numeric py_float key [msg] (last_numeric py_float key msgs current).
Proof.
  revert current. induction msgs as [|msg' msgs IH]; intros current; [done|].
  simpl. by rewrite IH.
Qed.

Lemma run_data msgs m key :
  data (run py_float msgs m).1 !! key =
  last_numeric py_float key msgs (data m !! key).
Proof using py_float_unavailable.
  induction msgs as [|msg msgs IH] using rev_ind; [done|].
  rewrite run_snoc, deliver_meter, update_data, last_numeric_snoc, <- IH.
  simpl. destruct (decide (msg.2 = "unavailable")) as [Hu|Hu].
  - by rewrite Hu, float_of_payload_unavailable.
  - destruct (float_of_payload py_float msg.2) as [v|]; [|by case_decide].
    rewrite lookup_insert. by case_decide.
Qed.

(** *** A per-phase sensor, on an object that is ready *)

Lemma forwarded_power_path sensor value m path :
  path ∈ power_paths →
  service (forwarded sensor value m).1 !! path = service m !! path
  ∧ published path (forwarded sensor value m).2 = [].
Proof.
  intros Hin.
  assert (∀ p, data_map !! sensor = Some p → path ≠ p) as Hne.
  { intros p Hp ->. by apply data_map_path in Hp as (_ & _ & Hnot). }
  split; [by apply forwarded_service | by apply forwarded_silent].
Qed.

Section PhaseSensor.

Context (topic payload : string) (v b e : float) (old : pyval) (m : Meter).
Context (n : string).

Let sensor := sensor_of topic.
Let d := <[sensor := v]> (data m).
Let total := total_power_of b e.
Let fw := forwarded sensor v (with_data (insert sensor v) m).
Let m3 := gate_state P_power old total fw.1.

Hypothesis Hready : ready m.
Hypothesis Hnumber : float_of_payload py_float payload = Some v.
Hypothesis Hbezug : d !! K_bezug = Some b.
Hypothesis Heinspeisung : d !! K_einspeisung = Some e.
Hypothesis Hold : service m !! P_power = Some old.
Hypothesis Hdigit : Py.re_search_digit sensor = Some n.

Lemma phase_state_data : data m3 = d.
Proof. unfold m3, fw. by rewrite gate_state_data, forwarded_data. Qed.

Lemma phase_state_service path :
  path ∈ power_paths → service m3 !! path = service m !! path.
Proof using Hold.
  intros Hin. unfold m3. rewrite (gate_state_service _ old).
  - rewrite decide_False.
    + unfold fw. by rewrite (proj1 (forwarded_power_path _ _ _ path Hin)).
    + intros ->. by apply power_not_phase in Hin.
  - unfold fw. by rewrite forwarded_service_power.
Qed.

(** A reading is missing: the [KeyError] is caught and logged. *)
Lemma update_phase_missing :
  readings_of d = None →
  update py_float topic payload m =
  (Ok tt, m3, fw.2 ++ gate P_power old total ++ [WarnKeyError]).
Proof using Hready Hnumber Hbezug Heinspeisung Hold Hdigit.
  intros Hnone.
  rewrite (update_number_ready _ _ v m b e old) by done.
  fold sensor total fw m3. unfold try_except, phase_step. rewrite Hdigit.
  rewrite phase_branch_missing; [done|].
  change (readings_of (data m3) = None). by rewrite phase_state_data.
Qed.

(** The apparent powers sum to zero: the division raises, and no
    clause catches it. *)
Lemma update_phase_zero r :
  readings_of d = Some r →
  PrimFloat.eqb (sum_of r) 0 = true →
  update py_float topic payload m =
  (Raise ZeroDivisionError, m3, fw.2 ++ gate P_power old total).
Proof using Hready Hnumber Hbezug Heinspeisung Hold Hdigit.
  intros Hr Hz.
  rewrite (update_number_ready _ _ v m b e old) by done.
  fold sensor total fw m3. unfold try_except, phase_step. rewrite Hdigit.
  rewrite (phase_branch_zero _ _ _ r); [simpl; by rewrite !app_nil_r| |done].
  change (readings_of (data m3) = Some r). by rewrite phase_state_data.
Qed.

(** All six readings are there and the sum is not zero: the power of
    the phase goes through the gate. *)
Lemma update_phase_publish r i u oldn :
  let path := "/Ac/L" +:+ n +:+ "/Power" in
  let power := phase_power_of total (sum_of r) i u in
  path ∈ power_paths →
  readings_of d = Some r →
  PrimFloat.eqb (sum_of r) 0 = false →
  d !! ("hass/sensor/netz_i" +:+ n) = Some i →
  d !! ("hass/sensor/netz_u" +:+ n) = Some u →
  service m !! path = Some oldn →
  update py_float topic payload m =
  (Ok tt, gate_state path oldn power m3,
   fw.2 ++ gate P_power old total ++ gate path oldn power).
Proof using Hready Hnumber Hbezug Heinspeisung Hold Hdigit.
  intros path power Hin Hr Hz Hi Hu Holdn.
  rewrite (update_number_ready _ _ v m b e old) by done.
  fold sensor total fw m3. unfold try_except, phase_step. rewrite Hdigit.
  rewrite (phase_branch_publish _ _ _ r i u oldn); [done| |done|..].
  - change (readings_of (data m3) = Some r). by rewrite phase_state_data.
  - change (data m3 !! ("hass/sensor/netz_i" +:+ n) = Some i).
    by rewrite phase_state_data.
  - change (data m3 !! ("hass/sensor/netz_u" +:+ n) = Some u).
    by rewrite phase_state_data.
  - change (service m3 !! path = Some oldn).
    by rewrite phase_state_service.
Qed.

End PhaseSensor.

End Properties.

(** ** The fresh engine *)

Lemma init_ready host file inst : ready (init host file inst).
Proof. unfold ready. repeat constructor; by eexists. Qed.

Lemma init_service_output host file inst path :
  path ∈ output_paths → service (init host file inst) !! path = Some PyNone.
Proof.
  intros Hpath.
  repeat (apply elem_of_cons in Hpath as [->|Hpath]; [done|]).
  by apply elem_of_nil in Hpath.
Qed.

Lemma init_data host file inst key :
  data (init host file inst) !! key =
  if decide (key = K_bezug ∨ key = K_einspeisung) then Some 0%float else None.
Proof.
  simpl. rewrite !lookup_insert, lookup_empty.
  destruct (decide (K_einspeisung = key)) as [<-|]; [by rewrite decide_True; auto|].
  destruct (decide (K_bezug = key)) as [<-|]; [by rewrite decide_True; auto|].
  rewrite decide_False; [done|]. by intros [->| ->].
Qed.

(** ** Properties of the engine *)

Section Engine.

Variable py_float : string → option float.

(** [float("unavailable")] raises [ValueError]. *)
Hypothesis py_float_unavailable : py_float "unavailable" = None.

Variables (host file : string) (inst : Z).

Lemma last_numeric_skip key msgs current :
  Forall (λ msg, sensor_of msg.1 = key → msg.2 = "unavailable") msgs →
  last_numeric py_float key msgs current = current.
Proof.
  intros H. revert current.
  induction H as [|msg msgs Hmsg _ IH]; intros current; [done|].
  simpl. rewrite IH. case_decide; [done|]. case_decide; [|done].
  by destruct (Hmsg ltac:(done)).
Qed.

Lemma last_numeric_other key msgs current :
  Forall (λ msg, sensor_of msg.1 ≠ key) msgs →
  last_numeric py_float key msgs current = current.
Proof.
  intros H. apply last_numeric_skip.
  eapply Forall_impl; [exact H|]. by intros msg Hne Heq.
Qed.

Lemma after_ready msgs : ready (after py_float host file inst msgs).1.
Proof. apply run_ready, init_ready. Qed.

Lemma after_balance msgs :
  let m := (after py_float host file inst msgs).1 in
  is_Some (data m !! K_bezug) ∧ is_Some (data m !! K_einspeisung).
Proof.
  apply (run_invariant py_float
    (λ m, is_Some (data m !! K_bezug) ∧ is_Some (data m !! K_einspeisung))).
  - intros m topic payload [Hb He]. apply update_invariant; [|done..].
    intros m' key x [Hb' He']. simpl. rewrite !lookup_insert.
    split; by case_decide.
  - by rewrite !init_data.
Qed.

(** Storing a reading leaves the power-balance readings there. *)
Lemma stored_balance topic v msgs :
  let m := (after py_float host file inst msgs).1 in
  ∃ b e, <[sensor_of topic := v]> (data m) !! K_bezug = Some b
       ∧ <[sensor_of topic := v]> (data m) !! K_einspeisung = Some e.
Proof.
  intros m. destruct (after_balance msgs) as [[b Hb] [e He]]. fold m in Hb, He.
  rewrite !lookup_insert, Hb, He. repeat case_decide; eauto.
Qed.

(** C5: after any sequence of messages, the dictionary holds for every
    key the last number delivered for it, "unavailable" payloads being
    skipped ([last_numeric]); a key for which nothing or only
    "unavailable" was delivered holds what it held before. *)
Theorem last_write_wins msgs m key :
  data (run py_float msgs m).1 !! key =
    last_numeric py_float key msgs (data m !! key)
  ∧ (Forall (λ msg, sensor_of msg.1 = key → msg.2 = "unavailable") msgs →
     data (run py_float msgs m).1 !! key = data m !! key).
Proof using py_float_unavailable.
  split; [by apply run_data|].
  intros H. rewrite run_data by done. by apply last_numeric_skip.
Qed.

(** C7: an "unavailable" payload makes [update] return; the object is
    left as it was, readings and service alike, and the only event is
    the warning: nothing is published. *)
Theorem unavailable_discarded topic m :
  update py_float topic "unavailable" m =
  (Ok tt, m, [WarnUnavailable (sensor_of topic)]).
Proof using py_float_unavailable.
  rewrite update_not_number by by apply float_of_payload_unavailable.
  by rewrite decide_True.
Qed.

(** C9: when the two power-balance readings are there once the number
    is stored, the value [update] submits to [/Ac/Power] is exactly
    [1000.0 * (bezug - einspeisung)] of the stored readings: that value
    is what the call publishes there, if it publishes, and the path
    holds it afterwards or a value equal to it. *)
Theorem total_power_derived topic payload v m b e old :
  let d := <[sensor_of topic := v]> (data m) in
  let total := (1000.0 * (b - e))%float in
  let out := update py_float topic payload m in
  ready m →
  float_of_payload py_float payload = Some v →
  d !! K_bezug = Some b → d !! K_einspeisung = Some e →
  service m !! P_power = Some old →
  data out.1.2 = d
  ∧ published P_power out.2 = (if Py.ne old total then [total] else [])
  ∧ service out.1.2 !! P_power = Some (if Py.ne old total then PyFloat total else old).
Proof.
  intros d total out Hr Hv Hb He Hold. split.
  - unfold out. by rewrite update_data, Hv.
  - by apply (total_power_gate py_float topic payload v m b e old).
Qed.

(** C10: [__init__] stores 0.0 for both power-balance sensors, so that
    every [update] with a number, after any messages, finds both
    readings, derives the total power from them and submits it to the
    gate of [set_path]; the total is 0.0 as long as no message was for a
    power-balance sensor. *)
Theorem total_power_never_skipped msgs topic payload v :
  let m := (after py_float host file inst msgs).1 in
  let out := update py_float topic payload m in
  float_of_payload py_float payload = Some v →
  data (init host file inst) !! K_bezug = Some 0%float
  ∧ data (init host file inst) !! K_einspeisung = Some 0%float
  ∧ ∃ b e old,
      data out.1.2 !! K_bezug = Some b
      ∧ data out.1.2 !! K_einspeisung = Some e
      ∧ service m !! P_power = Some old
      ∧ published P_power out.2 =
          (if Py.ne old (total_power_of b e) then [total_power_of b e] else [])
      ∧ service out.1.2 !! P_power = Some (held old (total_power_of b e))
      ∧ (Forall (λ msg, sensor_of msg.1 ≠ K_bezug ∧ sensor_of msg.1 ≠ K_einspeisung)
           (msgs ++ [(topic, payload)]) →
         total_power_of b e = 0%float).
Proof using py_float_unavailable.
  intros m out Hv. split_and!; [done..|].
  destruct (stored_balance topic v msgs) as (b & e & Hb & He). fold m in Hb, He.
  destruct (ready_lookup m P_power (after_ready msgs)) as [old Hold].
  { repeat first [apply list_elem_of_here | apply list_elem_of_further]. }
  exists b, e, old.
  assert (Hd : data out.1.2 = <[sensor_of topic := v]> (data m)).
  { unfold out. by rewrite update_data, Hv. }
  rewrite Hd. split_and!; [done..| | |].
  - by apply (total_power_gate py_float topic payload v m b e old);
      [apply after_ready|..].
  - by apply (total_power_gate py_float topic payload v m b e old);
      [apply after_ready|..].
  - intros Hall. apply Forall_app in Hall as [Hmsgs Hlast].
    apply Forall_singleton in Hlast as [Hnb Hne]. simpl in Hnb, Hne.
    rewrite lookup_insert_ne in Hb, He by done.
    assert (Hz : ∀ key, key = K_bezug ∨ key = K_einspeisung →
              data m !! key = Some 0%float).
    { intros key Hkey. unfold m, after.
      rewrite (run_data py_float py_float_unavailable), last_numeric_other, init_data.
      - by rewrite decide_True.
      - eapply Forall_impl; [exact Hmsgs|].
        intros msg [? ?]. by destruct Hkey as [-> | ->]. }
    rewrite Hz in Hb, He by auto.
    by injection Hb as <-; injection He as <-.
Qed.

Lemma phase_sensor_digit sensor :
  sensor ∈ phase_sensors →
  sensor ≠ K_bezug ∧ sensor ≠ K_einspeisung
  ∧ ∃ n, Py.re_search_digit sensor = Some n.
Proof.
  intros Hin.
  repeat (apply elem_of_cons in Hin as [->|Hin];
    [split_and!; [discriminate..|by eexists]|]).
  by apply elem_of_nil in Hin.
Qed.

Lemma published_warning path : published path [WarnKeyError] = [].
Proof. done. Qed.

(** C2, as the code has it: the export reading of an engine to which no
    export message was delivered is the 0.0 of [__init__].  [update] for
    a per-phase sensor, with a number, derives the total power from it
    and submits it to the gate of [set_path].  When one of the six
    per-phase readings is still missing, the call returns, logs the
    [KeyError] and publishes no per-phase power. *)
Theorem export_never_delivered msgs topic payload v :
  let m := (after py_float host file inst msgs).1 in
  let out := update py_float topic payload m in
  Forall (λ msg, sensor_of msg.1 ≠ K_einspeisung) msgs →
  phase_topic topic →
  float_of_payload py_float payload = Some v →
  data m !! K_einspeisung = Some 0%float
  ∧ ∃ b old,
      data m !! K_bezug = Some b
      ∧ service m !! P_power = Some old
      ∧ published P_power out.2 =
          (if Py.ne old (1000.0 * (b - 0))%float
           then [(1000.0 * (b - 0))%float] else [])
      ∧ (readings_of (<[sensor_of topic := v]> (data m)) = None →
         out.1.1 = Ok tt
         ∧ WarnKeyError ∈ out.2
         ∧ ∀ path, path ∈ power_paths → published path out.2 = []).
Proof using py_float_unavailable.
  intros m out Hmsgs Htopic Hv.
  destruct (phase_sensor_digit _ Htopic) as (Hnb & Hne & n & Hdigit).
  assert (He : data m !! K_einspeisung = Some 0%float).
  { unfold m, after.
    by rewrite (run_data py_float py_float_unavailable), last_numeric_other, init_data. }
  destruct (after_balance msgs) as [[b Hb] _]. fold m in Hb.
  destruct (ready_lookup m P_power (after_ready msgs)) as [old Hold].
  { repeat first [apply list_elem_of_here | apply list_elem_of_further]. }
  assert (Hb' : <[sensor_of topic := v]> (data m) !! K_bezug = Some b)
    by by rewrite lookup_insert_ne.
  assert (He' : <[sensor_of topic := v]> (data m) !! K_einspeisung = Some 0%float)
    by by rewrite lookup_insert_ne.
  split; [done|]. exists b, old. split_and!; [done..| |].
  - by apply (total_power_gate py_float topic payload v m b 0%float old);
      [apply after_ready|..].
  - intros Hnone. unfold out.
    rewrite (update_phase_missing py_float topic payload v b 0%float old m n);
      [|apply after_ready|done..].
    simpl. split_and!; [done| |].
    + rewrite !elem_of_app, list_elem_of_singleton. auto.
    + intros path Hpath. rewrite !published_app, published_warning.
      rewrite (proj2 (forwarded_power_path _ _ _ _ Hpath)).
      rewrite published_gate_ne; [done|].
      intros <-. by apply power_not_phase in Hpath.
Qed.

(** One call derives the power of one phase: [update] for a sensor of
    phase [n], with all six readings there and a sum of apparent powers
    that is not zero, returns and submits [total / sum * i_n * u_n] to
    the power path of phase [n], where [total] is the total power it has
    just submitted to [/Ac/Power].  The power paths of the two other
    phases are neither written nor published. *)
Theorem phase_power_derived topic payload v m n b e r i u old oldn :
  let sensor := sensor_of topic in
  let d := <[sensor := v]> (data m) in
  let total := (1000.0 * (b - e))%float in
  let path := "/Ac/L" +:+ n +:+ "/Power" in
  let power :=
    (total / (r_i1 r * r_u1 r + r_i2 r * r_u2 r + r_i3 r * r_u3 r) * i * u)%float in
  let out := update py_float topic payload m in
  ready m →
  float_of_payload py_float payload = Some v →
  n ∈ ["1"; "2"; "3"] →
  sensor = "hass/sensor/netz_i" +:+ n ∨ sensor = "hass/sensor/netz_u" +:+ n →
  d !! K_bezug = Some b → d !! K_einspeisung = Some e →
  readings_of d = Some r →
  PrimFloat.eqb (r_i1 r * r_u1 r + r_i2 r * r_u2 r + r_i3 r * r_u3 r) 0 = false →
  d !! ("hass/sensor/netz_i" +:+ n) = Some i →
  d !! ("hass/sensor/netz_u" +:+ n) = Some u →
  service m !! P_power = Some old →
  service m !! path = Some oldn →
  out.1.1 = Ok tt
  ∧ published P_power out.2 = (if Py.ne old total then [total] else [])
  ∧ published path out.2 = (if Py.ne oldn power then [power] else [])
  ∧ service out.1.2 !! path = Some (if Py.ne oldn power then PyFloat power else oldn)
  ∧ ∀ q, q ∈ power_paths → q ≠ path →
      published q out.2 = [] ∧ service out.1.2 !! q = service m !! q.
Proof.
  intros sensor d total path power out Hr Hv Hn Hs Hb He Hrd Hz Hi Hu Hold Holdn.
  assert (Hdigit : Py.re_search_digit sensor = Some n).
  { repeat (apply elem_of_cons in Hn as [->|Hn];
      [by destruct Hs as [-> | ->]|]).
    by apply elem_of_nil in Hn. }
  assert (Hpath : path ∈ power_paths).
  { unfold path.
    repeat (apply elem_of_cons in Hn as [->|Hn];
      [repeat first [apply list_elem_of_here | apply list_elem_of_further]|]).
    by apply elem_of_nil in Hn. }
  assert (Hnp : P_power ≠ path).
  { intros Heq. apply power_not_phase. by rewrite Heq. }
  split_and!.
  - unfold out.
    by rewrite (update_phase_publish py_float topic payload v b e old m n
                  Hr Hv Hb He Hold Hdigit r i u oldn).
  - by apply (total_power_gate py_float topic payload v m b e old).
  - unfold out.
    rewrite (update_phase_publish py_float topic payload v b e old m n
               Hr Hv Hb He Hold Hdigit r i u oldn) by done.
    simpl. rewrite !published_app.
    rewrite (proj2 (forwarded_power_path _ _ _ _ Hpath)).
    rewrite published_gate_ne by done. apply published_gate.
  - unfold out.
    rewrite (update_phase_publish py_float topic payload v b e old m n
               Hr Hv Hb He Hold Hdigit r i u oldn) by done.
    simpl. rewrite (gate_state_service _ oldn).
    + by rewrite decide_True.
    + by rewrite (phase_state_service topic v b e old m Hold).
  - intros q Hq Hqp. unfold out.
    rewrite (update_phase_publish py_float topic payload v b e old m n
               Hr Hv Hb He Hold Hdigit r i u oldn) by done.
    simpl. split.
    + rewrite !published_app.
      rewrite (proj2 (forwarded_power_path _ _ _ _ Hq)).
      rewrite !published_gate_ne; [done|done|].
      intros <-. by apply power_not_phase in Hq.
    + rewrite (gate_state_service _ oldn).
      * rewrite decide_False by done.
        by rewrite (phase_state_service topic v b e old m Hold).
      * by rewrite (phase_state_service topic v b e old m Hold).
Qed.

(** *** Delivering the same power-balance pair again *)

Lemma ne_held old t :
  PrimFloat.eqb t t = true → Py.ne (held old t) t = false.
Proof.
  intros Ht. unfold held. destruct (Py.ne old t) eqn:Hne; [|done].
  simpl. by rewrite Ht.
Qed.

Lemma settled_update va vb topic payload m :
  (sensor_of topic = K_bezug ∧ float_of_payload py_float payload = Some va)
  ∨ (sensor_of topic = K_einspeisung ∧ float_of_payload py_float payload = Some vb) →
  settled va vb m →
  settled va vb (update py_float topic payload m).1.2
  ∧ published P_power (update py_float topic payload m).2 = [].
Proof.
  intros Hmsg (Hr & Hb & He & q & Hq & Hne).
  assert (∃ v, float_of_payload py_float payload = Some v
            ∧ <[sensor_of topic := v]> (data m) !! K_bezug = Some va
            ∧ <[sensor_of topic := v]> (data m) !! K_einspeisung = Some vb)
    as (v & Hv & Hb' & He').
  { destruct Hmsg as [[-> Hv]|[-> Hv]]; [exists va|exists vb];
      by rewrite lookup_insert_eq, lookup_insert_ne. }
  destruct (total_power_gate py_float topic payload v m va vb q)
    as [Hpub Hserv]; [done..|].
  rewrite Hne in Hpub. split; [|done].
  split_and!.
  - by apply update_ready.
  - by rewrite update_data, Hv.
  - by rewrite update_data, Hv.
  - exists q. split; [|done]. rewrite Hserv. unfold held. by rewrite Hne.
Qed.

Lemma first_delivery_settles va vb a b m :
  ready m → is_Some (data m !! K_einspeisung) →
  float_of_payload py_float a = Some va →
  float_of_payload py_float b = Some vb →
  PrimFloat.eqb (total_power_of va vb) (total_power_of va vb) = true →
  settled va vb (run py_float [(T_bezug, a); (T_einspeisung, b)] m).1.
Proof.
  intros Hr [e0 He0] Ha Hb Ht.
  unfold run. simpl. rewrite !deliver_meter. simpl.
  set (m1 := (update py_float T_bezug a m).1.2).
  assert (Hr1 : ready m1) by by apply update_ready.
  assert (Hd1 : data m1 = <[K_bezug := va]> (data m)).
  { unfold m1. by rewrite update_data, Ha. }
  destruct (ready_lookup m1 P_power Hr1) as [old Hold].
  { repeat first [apply list_elem_of_here | apply list_elem_of_further]. }
  destruct (total_power_gate py_float T_einspeisung b vb m1 va vb old)
    as [_ Hserv]; [done|done|..|done|].
  { rewrite Hd1. by rewrite lookup_insert_ne, lookup_insert_eq. }
  { by rewrite lookup_insert_eq. }
  split_and!.
  - by apply update_ready.
  - rewrite update_data, Hb, Hd1.
    by rewrite lookup_insert_ne, lookup_insert_eq.
  - rewrite update_data, Hb. by rewrite lookup_insert_eq.
  - eexists. split; [exact Hserv|]. by apply ne_held.
Qed.

Lemma settled_redelivery va vb a b m :
  float_of_payload py_float a = Some va →
  float_of_payload py_float b = Some vb →
  settled va vb m →
  published P_power (run py_float [(T_bezug, a); (T_einspeisung, b)] m).2 = [].
Proof.
  intros Ha Hb Hm. unfold run. simpl.
  rewrite !deliver_events, !deliver_meter. simpl.
  destruct (settled_update va vb T_bezug a m) as [Hm1 Hw1]; [by left|done|].
  destruct (settled_update va vb T_einspeisung b _ (or_intror (conj eq_refl Hb)) Hm1)
    as [_ Hw2].
  by rewrite published_app, Hw1, Hw2.
Qed.

(** C6, as the code has it: [set_path] writes to a registered path
    exactly when the value differs, by the floats' [!=], from the one
    last published there, and always when nothing was published there.
    A power-balance pair delivered a second time in a row publishes no
    total power, provided the total is not NaN: the readings stored are
    the same, and so is the total derived from them. *)
Theorem change_suppression msgs path value a b va vb :
  let m := (after py_float host file inst msgs).1 in
  let w := (after py_float host file inst msgs).2 in
  let pair := [(T_bezug, a); (T_einspeisung, b)] in
  let total := (1000.0 * (va - vb))%float in
  path ∈ output_paths →
  float_of_payload py_float a = Some va →
  float_of_payload py_float b = Some vb →
  PrimFloat.eqb total total = true →
  published path (set_path path value m).2 =
    match last_published path w with
    | Some x => if PrimFloat.eqb x value then [] else [value]
    | None => [value]
    end
  ∧ published P_power (redelivery py_float m a b) = []
  ∧ ∀ key,
      data (run py_float pair (run py_float pair m).1).1 !! key =
      data (run py_float pair m).1 !! key.
Proof.
  intros m w pair total Hpath Ha Hb Ht. split_and!.
  - rewrite set_path_eq.
    pose proof (run_tracks py_float msgs (init host file inst) path) as Htr.
    fold (after py_float host file inst msgs) in Htr. fold m w in Htr.
    destruct (last_published path w) as [x|].
    + rewrite Htr. cbn [snd]. rewrite published_gate. unfold Py.ne.
      by destruct (PrimFloat.eqb x value).
    + rewrite init_service_output in Htr by done.
      rewrite Htr. cbn [snd]. by rewrite published_gate.
  - unfold redelivery. apply (settled_redelivery va vb); [done..|].
    apply first_delivery_settles; [apply after_ready|apply after_balance|done..].
  - intros key.
    assert (Hs : settled va vb (run py_float pair m).1).
    { apply first_delivery_settles;
        [apply after_ready|apply after_balance|done..]. }
    destruct Hs as (_ & Hva & Hvb & _).
    unfold run at 1. simpl. rewrite !deliver_meter. simpl.
    rewrite !update_data, Ha, Hb.
    change (sensor_of T_bezug) with K_bezug.
    change (sensor_of T_einspeisung) with K_einspeisung.
    rewrite !lookup_insert. repeat case_decide; by subst.
Qed.

End Engine.

(** ** The sum of the phase powers

    Relative errors over the rationals: how the roundings of lines 123 to
    138 add up. *)

Section Near.

Local Open Scope Q_scope.

Lemma near_trans k1 k2 x y z :
  0 <= k1 → 0 <= k2 → near k1 y x → near k2 z y → near (k1 + k2 + k1 * k2) z x.
Proof.
  unfold near. intros H1 H2 Hy Hz.
  pose proof (Qabs_triangle (z - y) (y - x)) as Ht.
  assert (Heq : z - y + (y - x) == z - x) by ring. rewrite Heq in Ht.
  pose proof (Qabs_triangle (y - x) x) as Hy'.
  assert (Heq' : y - x + x == y) by ring. rewrite Heq' in Hy'.
  pose proof (Qabs_nonneg x). pose proof (Qabs_nonneg y).
  generalize dependent (Qabs x). generalize dependent (Qabs y).
  generalize dependent (Qabs (z - x)). generalize dependent (Qabs (z - y)).
  generalize dependent (Qabs (y - x)). intros. nra.
Qed.

Lemma near_scale k y e w : near k y e → near k (y * w) (e * w).
Proof.
  unfold near. intros H.
  assert (Heq : y * w - e * w == (y - e) * w) by ring.
  rewrite Heq, !Qabs_Qmult.
  pose proof (Qabs_nonneg w).
  generalize dependent (Qabs w). generalize dependent (Qabs e).
  generalize dependent (Qabs (y - e)). intros. nra.
Qed.

Lemma near_weaken k k' y e : k <= k' → near k y e → near k' y e.
Proof.
  unfold near. intros Hk H. pose proof (Qabs_nonneg e).
  generalize dependent (Qabs e). generalize dependent (Qabs (y - e)). intros. nra.
Qed.

Lemma near_mul k1 k2 y e z w :
  0 <= k1 → 0 <= k2 → near k1 y e → near k2 z (y * w) →
  near (k1 + k2 + k1 * k2) z (e * w).
Proof. intros H1 H2 Hy Hz. eapply near_trans; eauto. by apply near_scale. Qed.

Lemma near_pos k a x : k < 1 → near k a x → 0 < a → 0 < x.
Proof.
  unfold near. intros Hk H Ha.
  destruct (Qlt_le_dec 0 x) as [|Hx]; [assumption|exfalso].
  rewrite (Qabs_neg x) in H by assumption.
  rewrite (Qabs_pos (a - x)) in H by lra. nra.
Qed.

Lemma near_add k y1 e1 y2 e2 :
  0 <= e1 → 0 <= e2 → near k y1 e1 → near k y2 e2 → near k (y1 + y2) (e1 + e2).
Proof.
  unfold near. intros H1 H2 N1 N2.
  rewrite (Qabs_pos e1) in N1 by assumption. rewrite (Qabs_pos e2) in N2 by assumption.
  rewrite (Qabs_pos (e1 + e2)) by lra.
  pose proof (Qabs_triangle (y1 - e1) (y2 - e2)) as Ht.
  assert (Heq : y1 - e1 + (y2 - e2) == y1 + y2 - (e1 + e2)) by ring. rewrite Heq in Ht.
  lra.
Qed.

(** Products [g * x] with [x] not negative have the sign of [g]. *)
Lemma near_add_scaled k g y1 x1 y2 x2 :
  0 <= x1 → 0 <= x2 → near k y1 (g * x1) → near k y2 (g * x2) →
  near k (y1 + y2) (g * (x1 + x2)).
Proof.
  unfold near. intros H1 H2 N1 N2.
  rewrite Qabs_Qmult in *.
  rewrite (Qabs_pos x1) in N1 by assumption. rewrite (Qabs_pos x2) in N2 by assumption.
  rewrite (Qabs_pos (x1 + x2)) by lra.
  pose proof (Qabs_triangle (y1 - g * x1) (y2 - g * x2)) as Ht.
  assert (Heq : y1 - g * x1 + (y2 - g * x2) == y1 + y2 - g * (x1 + x2)) by ring.
  rewrite Heq in Ht.
  generalize dependent (Qabs g). generalize dependent (Qabs (y1 - g * x1)).
  generalize dependent (Qabs (y2 - g * x2)).
  generalize dependent (Qabs (y1 + y2 - g * (x1 + x2))). intros. nra.
Qed.

(** The quotient [g] of [t] by [s], taken times a sum [x] that [s] is
    near, is near [t]. *)
Lemma near_quotient k k' g s x t :
  0 <= k → k < 1 → 0 <= k' → k <= k' * (1 - k) → 0 < x → near k s x → g * s == t →
  near k' (g * x) t.
Proof.
  unfold near. intros Hk Hk1 Hk0 Hk' Hx N Hg.
  rewrite (Qabs_pos x) in N by lra.
  assert (Hs : (1 - k) * x <= s).
  { destruct (Qabs_Qle_condition (s - x) (k * x)) as [Hc _].
    specialize (Hc N). lra. }
  assert (Heq : g * x - t == g * (x - s)) by (rewrite <- Hg; ring).
  rewrite Heq, <- Hg, !Qabs_Qmult.
  assert (Heq' : x - s == - (s - x)) by ring.
  rewrite Heq', Qabs_opp, (Qabs_pos s) by nra.
  pose proof (Qabs_nonneg g).
  generalize dependent (Qabs g). generalize dependent (Qabs (s - x)). intros.
  assert (k * x <= k' * (1 - k) * x) by nra.
  assert (k' * ((1 - k) * x) <= k' * s) by nra.
  assert (q <= k' * s) by lra. nra.
Qed.

Lemma near_eq k y e e' : e == e' → near k y e → near k y e'.
Proof. unfold near. intros Heq. by rewrite Heq. Qed.

(** The sum of the apparent powers, line 123: three accurate products
    above zero, added accurately. *)
Lemma apparent_sum_near i1 u1 i2 u2 i3 u3 a1 a2 a3 s12 s :
  near unit_roundoff a1 (i1 * u1) → near unit_roundoff a2 (i2 * u2) →
  near unit_roundoff a3 (i3 * u3) →
  0 < a1 → 0 < a2 → 0 < a3 →
  near unit_roundoff s12 (a1 + a2) → near unit_roundoff s (s12 + a3) →
  0 < i1 * u1 ∧ 0 < i2 * u2 ∧ 0 < i3 * u3
  ∧ near three_roundings s (i1 * u1 + i2 * u2 + i3 * u3).
Proof.
  intros A1 A2 A3 P1 P2 P3 S12 S.
  assert (Hu : 0 <= unit_roundoff) by by vm_compute.
  assert (Hu2 : 0 <= two_roundings) by by vm_compute.
  assert (X1 : 0 < i1 * u1) by by apply (near_pos unit_roundoff a1).
  assert (X2 : 0 < i2 * u2) by by apply (near_pos unit_roundoff a2).
  assert (X3 : 0 < i3 * u3) by by apply (near_pos unit_roundoff a3).
  split_and!; [done..|].
  apply (near_trans two_roundings unit_roundoff _ (s12 + a3) s); [done..| |done].
  apply near_add; [lra..| |].
  - apply (near_trans unit_roundoff unit_roundoff _ (a1 + a2) s12); [done..| |done].
    apply near_add; [lra..|done|done].
  - apply (near_weaken unit_roundoff); [by vm_compute|done].
Qed.

Lemma near_sum_pos k s x : k <= 1 # 2 → 0 < x → near k s x → 0 < s.
Proof.
  unfold near. intros Hk Hx Hs. rewrite (Qabs_pos x) in Hs by lra.
  destruct (Qabs_Qle_condition (s - x) (k * x)) as [Hc _].
  specialize (Hc Hs). nra.
Qed.

Lemma derived_sum_pos i1 u1 i2 u2 i3 u3 a1 a2 a3 s12 s :
  near unit_roundoff a1 (i1 * u1) → near unit_roundoff a2 (i2 * u2) →
  near unit_roundoff a3 (i3 * u3) →
  0 < a1 → 0 < a2 → 0 < a3 →
  near unit_roundoff s12 (a1 + a2) → near unit_roundoff s (s12 + a3) →
  0 < s.
Proof.
  intros A1 A2 A3 P1 P2 P3 S12 S.
  destruct (apparent_sum_near i1 u1 i2 u2 i3 u3 a1 a2 a3 s12 s)
    as (X1 & X2 & X3 & Hs); [done..|].
  apply (near_sum_pos three_roundings s (i1 * u1 + i2 * u2 + i3 * u3));
    [by vm_compute|lra|done].
Qed.

(** The arithmetic of lines 123 to 138 over the rationals, every
    operation within the unit roundoff of the exact result: the three
    phase powers sum to the total, up to [1e-9] of it. *)
Lemma derived_sum_near i1 u1 i2 u2 i3 u3 a1 a2 a3 s12 s t f r1 r2 r3 c1 c2 c3 :
  near unit_roundoff a1 (i1 * u1) → near unit_roundoff a2 (i2 * u2) →
  near unit_roundoff a3 (i3 * u3) →
  0 < a1 → 0 < a2 → 0 < a3 →
  near unit_roundoff s12 (a1 + a2) → near unit_roundoff s (s12 + a3) →
  near unit_roundoff f (t / s) →
  near unit_roundoff r1 (f * i1) → near unit_roundoff c1 (r1 * u1) →
  near unit_roundoff r2 (f * i2) → near unit_roundoff c2 (r2 * u2) →
  near unit_roundoff r3 (f * i3) → near unit_roundoff c3 (r3 * u3) →
  near (1 # 1000000000) (c1 + c2 + c3) t.
Proof.
  intros A1 A2 A3 P1 P2 P3 S12 S F R1 C1 R2 C2 R3 C3.
  assert (Hu : 0 <= unit_roundoff) by by vm_compute.
  assert (Hu2 : 0 <= two_roundings) by by vm_compute.
  destruct (apparent_sum_near i1 u1 i2 u2 i3 u3 a1 a2 a3 s12 s)
    as (X1 & X2 & X3 & Hs); [done..|].
  set (x := i1 * u1 + i2 * u2 + i3 * u3) in *.
  assert (Hx : 0 < x) by (unfold x; lra).
  assert (Hc : ∀ r c i u, near unit_roundoff r (f * i) → near unit_roundoff c (r * u) →
                 near two_roundings c (f * (i * u))).
  { intros r c i u R C. apply (near_eq _ _ (f * i * u)); [ring|].
    by apply (near_mul unit_roundoff unit_roundoff r (f * i) c u). }
  assert (Hsum : near two_roundings (c1 + c2 + c3) (f * x)).
  { unfold x. apply near_add_scaled; [lra..| |by eapply Hc].
    apply near_add_scaled; [lra..| |]; by eapply Hc. }
  assert (Hpos : 0 < s).
  { apply (near_sum_pos three_roundings s x); [by vm_compute|done..]. }
  assert (Hg : t / s * s == t) by (field; lra).
  assert (Hq : near (2 * three_roundings) (t / s * x) t).
  { apply (near_quotient three_roundings _ _ s); try done; by vm_compute. }
  assert (Hfx : near unit_roundoff (f * x) (t / s * x)) by by apply near_scale.
  pose proof (near_trans _ _ _ _ _ Hu Hu2 Hfx Hsum) as H1.
  assert (H0 : 0 <= 2 * three_roundings) by by vm_compute.
  assert (H4 : 0 <= unit_roundoff + two_roundings + unit_roundoff * two_roundings)
    by by vm_compute.
  pose proof (near_trans _ _ _ _ _ H0 H4 Hq H1) as H2.
  revert H2. apply near_weaken. by vm_compute.
Qed.

End Near.

(** ** What the floats' operations leave of the exact values *)

(** Floats that [==] takes for equal have the same value. *)
Lemma eqb_value x y : PrimFloat.eqb x y = true → value x = value y.
Proof.
  rewrite FloatAxioms.eqb_spec. unfold SFeqb, SFcompare, value.
  destruct (Prim2SF x) as [sx|sx| |sx mx ex], (Prim2SF y) as [sy|sy| |sy my ey];
    try done; try (by destruct sx); try (by destruct sy); try (by destruct sx, sy).
  destruct sx, sy; try done; destruct (Z.compare_spec ex ey) as [->| |]; try done;
    fold (Pos.compare mx my); destruct (Pos.compare_spec mx my) as [->| |]; done.
Qed.

(** A float that has a value is equal to itself: it is not NaN. *)
Lemma value_eqb x a : value x = Some a → PrimFloat.eqb x x = true.
Proof.
  rewrite FloatAxioms.eqb_spec. unfold SFeqb, SFcompare, value.
  destruct (Prim2SF x) as [sx|sx| |sx mx ex]; try done.
  intros _. destruct sx; rewrite Z.compare_refl;
    fold (Pos.compare mx mx); by rewrite Pos.compare_refl.
Qed.

Lemma rounded_inputs op x y z :
  rounded op x y z = true → ∃ a b, value x = Some a ∧ value y = Some b.
Proof.
  unfold rounded. destruct (value x) as [a|]; [|done].
  destruct (value y) as [b|]; [|done]. eauto.
Qed.

Lemma rounded_near op x y z a b :
  value x = Some a → value y = Some b → rounded op x y z = true →
  ∃ c, value z = Some c ∧ near unit_roundoff c (op a b).
Proof.
  unfold rounded, rounds. intros -> ->.
  destruct (value z) as [c|]; [|done].
  intros H. exists c. split; [done|]. by apply Qle_bool_iff.
Qed.

Lemma positive_value x a : value x = Some a → positive x = true → (0 < a)%Q.
Proof.
  unfold positive. intros ->. intros H. apply Qnot_le_lt. intros Hle.
  apply Qle_bool_iff in Hle. by rewrite Hle in H.
Qed.

Lemma accurate_phase_near factor i u f a b :
  value factor = Some f → value i = Some a → value u = Some b →
  accurate_phase factor i u = true →
  ∃ p c, near unit_roundoff p (f * a) ∧ value (factor * i * u) = Some c
       ∧ near unit_roundoff c (p * b).
Proof.
  intros Hf Ha Hb [H1 H2]%andb_prop. unfold accurate_mul in *.
  destruct (rounded_near _ _ _ _ _ _ Hf Ha H1) as (p & Hp & N1).
  destruct (rounded_near _ _ _ _ _ _ Hp Hb H2) as (c & Hc & N2).
  by exists p, c.
Qed.

(** Where the derivation is accurate, the sum of the apparent powers is
    not zero, and the three powers it gives sum to the total power, up to
    [1e-9] of it. *)
Lemma accurate_derivation_sum r total :
  accurate_derivation r total = true →
  PrimFloat.eqb (sum_of r) 0 = false
  ∧ ∃ x1 x2 x3 xt,
      value (derived_power r total "1") = Some x1
      ∧ value (derived_power r total "2") = Some x2
      ∧ value (derived_power r total "3") = Some x3
      ∧ value total = Some xt
      ∧ near (1 # 1000000000) (x1 + x2 + x3) xt.
Proof.
  unfold accurate_derivation, accurate_mul, accurate_add, accurate_div.
  intros H.
  repeat (match type of H with
          | (_ && _) = true => let H' := fresh "A" in apply andb_prop in H as [H H']
          end).
  destruct (rounded_inputs _ _ _ _ H) as (i1 & u1 & Hi1 & Hu1).
  destruct (rounded_inputs _ _ _ _ A9) as (i2 & u2 & Hi2 & Hu2).
  destruct (rounded_inputs _ _ _ _ A8) as (i3 & u3 & Hi3 & Hu3).
  destruct (rounded_near _ _ _ _ _ _ Hi1 Hu1 H) as (a1 & Ha1 & N1).
  destruct (rounded_near _ _ _ _ _ _ Hi2 Hu2 A9) as (a2 & Ha2 & N2).
  destruct (rounded_near _ _ _ _ _ _ Hi3 Hu3 A8) as (a3 & Ha3 & N3).
  pose proof (positive_value _ _ Ha1 A7) as P1.
  pose proof (positive_value _ _ Ha2 A6) as P2.
  pose proof (positive_value _ _ Ha3 A5) as P3.
  destruct (rounded_near _ _ _ _ _ _ Ha1 Ha2 A4) as (s12 & Hs12 & N12).
  destruct (rounded_near _ _ _ _ _ _ Hs12 Ha3 A3) as (s & Hs & Ns).
  change (r_i1 r * r_u1 r + r_i2 r * r_u2 r + r_i3 r * r_u3 r)%float
    with (sum_of r) in Hs.
  destruct (rounded_inputs _ _ _ _ A2) as (xt & s' & Hxt & Hs').
  rewrite Hs in Hs'. injection Hs' as <-.
  destruct (rounded_near _ _ _ _ _ _ Hxt Hs A2) as (f & Hf & Nf).
  destruct (accurate_phase_near _ _ _ _ _ _ Hf Hi1 Hu1 A1) as (p1 & c1 & R1 & Hc1 & C1).
  destruct (accurate_phase_near _ _ _ _ _ _ Hf Hi2 Hu2 A0) as (p2 & c2 & R2 & Hc2 & C2).
  destruct (accurate_phase_near _ _ _ _ _ _ Hf Hi3 Hu3 A) as (p3 & c3 & R3 & Hc3 & C3).
  split.
  - destruct (PrimFloat.eqb (sum_of r) 0) eqn:Hz; [|done].
    apply eqb_value in Hz. rewrite Hs in Hz. injection Hz as Hz.
    assert (Hsum : (0 < s)%Q).
    { eapply (derived_sum_pos _ _ _ _ _ _ a1 a2 a3 s12 s); eauto. }
    rewrite Hz in Hsum. by apply Qlt_irrefl in Hsum.
  - exists c1, c2, c3, xt. split_and!; [done..|].
    by eapply (derived_sum_near i1 u1 i2 u2 i3 u3 a1 a2 a3 s12 s xt f p1 p2 p3).
Qed.

(** ** Deliveries that leave the readings as they are *)

Lemma subscribed_phase topic :
  topic ∈ on_connect.*1 →
  phase_of topic = None ∨ ∃ n, n ∈ ["1"; "2"; "3"] ∧ phase_of topic = Some n.
Proof.
  intros Hin. cbv [on_connect data_map_items fmap list_fmap app fst K_bezug K_einspeisung] in Hin.
  repeat (apply elem_of_cons in Hin as [->|Hin];
    [first [by left
           |right; eexists; split; [|reflexivity];
            repeat first [apply list_elem_of_here | apply list_elem_of_further]]|]).
  by apply elem_of_nil in Hin.
Qed.

Lemma power_path_registered n :
  n ∈ ["1"; "2"; "3"] →
  "/Ac/L" +:+ n +:+ "/Power" ∈ power_paths
  ∧ "/Ac/L" +:+ n +:+ "/Power" ∈ output_paths.
Proof.
  intros Hn.
  repeat (apply elem_of_cons in Hn as [->|Hn];
    [split; repeat first [apply list_elem_of_here | apply list_elem_of_further]|]).
  by apply elem_of_nil in Hn.
Qed.

Lemma power_path_inj n k :
  n ∈ ["1"; "2"; "3"] → k ∈ ["1"; "2"; "3"] →
  "/Ac/L" +:+ n +:+ "/Power" = "/Ac/L" +:+ k +:+ "/Power" → n = k.
Proof.
  intros Hn Hk.
  repeat (apply elem_of_cons in Hn as [->|Hn];
    [repeat (apply elem_of_cons in Hk as [->|Hk]; [done|]);
     by apply elem_of_nil in Hk|]).
  by apply elem_of_nil in Hn.
Qed.

Lemma readings_lookup (d : gmap string float) r n :
  readings_of d = Some r → n ∈ ["1"; "2"; "3"] →
  d !! ("hass/sensor/netz_i" +:+ n) = Some (phase_current r n)
  ∧ d !! ("hass/sensor/netz_u" +:+ n) = Some (phase_voltage r n).
Proof.
  unfold readings_of. intros H Hn.
  repeat (match type of H with
          | context [d !! ?key] => destruct (d !! key) eqn:?; simpl in H; [|done]
          end).
  injection H as <-.
  repeat (apply elem_of_cons in Hn as [->|Hn]; [by split|]).
  by apply elem_of_nil in Hn.
Qed.

Lemma held_equal old c : PrimFloat.eqb c c = true → Py.ne (held old c) c = false.
Proof.
  intros Hc. unfold held. destruct (Py.ne old c) eqn:Hne; [|done].
  simpl. by rewrite Hc.
Qed.

Lemma run_app_meter py_float l1 l2 m :
  (run py_float (l1 ++ l2) m).1 = (run py_float l2 (run py_float l1 m).1).1.
Proof.
  induction l2 as [|msg l2 IH] using rev_ind; [by rewrite app_nil_r|].
  by rewrite app_assoc, !run_snoc, !deliver_meter, IH.
Qed.

(** A path that holds a value equal to [c] was last published a value
    with the value of [c]. *)
Lemma holds_equal_published s0 m w path c :
  tracks s0 m w → s0 !! path = Some PyNone → holds_equal m path c →
  ∃ x, last_published path w = Some x ∧ value x = value c.
Proof.
  intros Htr Hs0 (h & Hh & Hne). rewrite (Htr path) in Hh.
  destruct (last_published path w) as [x|].
  - injection Hh as <-. exists x. split; [done|]. apply eqb_value.
    simpl in Hne. by apply negb_false_iff in Hne.
  - rewrite Hs0 in Hh. by injection Hh as <-.
Qed.

Section Settle.

Variable py_float : string → option float.

Variables (d : gmap string float) (r : readings) (b e : float).

Let total := total_power_of b e.

Let power_path (n : string) := "/Ac/L" +:+ n +:+ "/Power".

(** The readings [d] are all there, and the powers they give are
    numbers. *)
Hypothesis Hreadings : readings_of d = Some r.
Hypothesis Hbezug : d !! K_bezug = Some b.
Hypothesis Heinspeisung : d !! K_einspeisung = Some e.
Hypothesis Hsum : PrimFloat.eqb (sum_of r) 0 = false.
Hypothesis Htotal : PrimFloat.eqb total total = true.
Hypothesis Hpower : ∀ n, n ∈ ["1"; "2"; "3"] →
  PrimFloat.eqb (derived_power r total n) (derived_power r total n) = true.

(** One delivery that leaves the readings [d]: the total-power path
    holds the total, the power path of the phase the message is for
    holds the power of that phase, and the other two hold what they
    held. *)
Lemma settle_step topic payload v m :
  let m' := (update py_float topic payload m).1.2 in
  ready m → topic ∈ on_connect.*1 →
  float_of_payload py_float payload = Some v →
  <[sensor_of topic := v]> (data m) = d →
  ready m' ∧ data m' = d ∧ holds_equal m' P_power total
  ∧ ∀ n, n ∈ ["1"; "2"; "3"] →
      phase_of topic = Some n ∨ holds_equal m (power_path n) (derived_power r total n) →
      holds_equal m' (power_path n) (derived_power r total n).
Proof using Hreadings Hbezug Heinspeisung Hsum Htotal Hpower.
  intros m' Hr Htopic Hv Hd.
  destruct (ready_lookup m P_power Hr) as [old Hold].
  { repeat first [apply list_elem_of_here | apply list_elem_of_further]. }
  assert (Hb' : <[sensor_of topic := v]> (data m) !! K_bezug = Some b)
    by by rewrite Hd.
  assert (He' : <[sensor_of topic := v]> (data m) !! K_einspeisung = Some e)
    by by rewrite Hd.
  split_and!.
  - by apply update_ready.
  - unfold m'. by rewrite update_data, Hv.
  - destruct (total_power_gate py_float topic payload v m b e old)
      as [_ Hs]; [done..|].
    exists (held old total). split; [done|]. by apply held_equal.
  - intros n Hn Hcase.
    destruct (power_path_registered n Hn) as [Hpath Hout].
    destruct (subscribed_phase topic Htopic) as [Hnone|(k & Hk & Hsome)].
    + destruct Hcase as [Hcase|(h & Hh & Hne)]; [congruence|].
      exists h. split; [|done]. rewrite <- Hh. unfold m'.
      rewrite (update_number_ready py_float topic payload v m b e old) by done.
      unfold try_except, phase_step. unfold phase_of in Hnone. rewrite Hnone.
      simpl. by apply (phase_state_service topic v b e old m Hold).
    + destruct (readings_lookup d r k Hreadings Hk) as [Hi Hu].
      destruct (power_path_registered k Hk) as [Hpathk Houtk].
      destruct (ready_lookup m _ Hr Houtk) as [oldk Holdk].
      unfold m'.
      rewrite (update_phase_publish py_float topic payload v b e old m k
                 Hr Hv Hb' He' Hold Hsome r (phase_current r k) (phase_voltage r k) oldk);
        [|first [done | by rewrite Hd]..].
      simpl. destruct (decide (n = k)) as [->|Hnk].
      * exists (held oldk (derived_power r total k)). split.
        -- rewrite (gate_state_service _ oldk).
           ++ by rewrite decide_True.
           ++ by rewrite (phase_state_service topic v b e old m Hold).
        -- by apply held_equal, Hpower.
      * destruct Hcase as [Hcase|(h & Hh & Hne)].
        { unfold phase_of in *. congruence. }
        exists h. split; [|done]. rewrite <- Hh.
        rewrite (gate_state_service _ oldk).
        -- rewrite decide_False.
           ++ by apply (phase_state_service topic v b e old m Hold).
           ++ intros Heq. by apply Hnk, power_path_inj.
        -- by rewrite (phase_state_service topic v b e old m Hold).
Qed.

(** Messages that repeat the readings [d], delivered to an object that
    holds them. *)
Lemma settle_run rest m :
  let m' := (run py_float rest m).1 in
  ready m → data m = d → holds_equal m P_power total →
  Forall (repeats py_float d) rest →
  ready m' ∧ data m' = d ∧ holds_equal m' P_power total
  ∧ ∀ n, n ∈ ["1"; "2"; "3"] →
      (∃ msg, msg ∈ rest ∧ phase_of msg.1 = Some n)
      ∨ holds_equal m (power_path n) (derived_power r total n) →
      holds_equal m' (power_path n) (derived_power r total n).
Proof using Hreadings Hbezug Heinspeisung Hsum Htotal Hpower.
  intros m' Hr Hd Hp. unfold m'. clear m'.
  induction rest as [|msg rest IH] using rev_ind; intros Hrest.
  - split_and!; [done..|]. intros n Hn [(msg & Hin & _)|H]; [|done].
    by apply elem_of_nil in Hin.
  - apply Forall_app in Hrest as [Hrest Hmsg]. apply Forall_inv in Hmsg.
    destruct (IH Hrest) as (Hr1 & Hd1 & Hp1 & Hn1).
    destruct Hmsg as (Htopic & v & Hv & Hsame).
    rewrite run_snoc, deliver_meter.
    destruct (settle_step msg.1 msg.2 v _ Hr1 Htopic Hv) as (Hr2 & Hd2 & Hp2 & Hn2).
    { rewrite Hd1. by apply insert_id. }
    split_and!; [done..|]. intros n Hn Hcase. apply Hn2; [done|].
    destruct Hcase as [(msg' & Hin & Hphase)|H].
    + apply elem_of_app in Hin as [Hin|Hin].
      * right. apply Hn1; [done|]. left. by exists msg'.
      * apply list_elem_of_singleton in Hin as ->. by left.
    + right. apply Hn1; [done|]. by right.
Qed.

End Settle.

Section PhaseSum.

Variable py_float : string → option float.

Variables (host file : string) (inst : Z).


End PhaseSum.

(** ** The engine on concrete messages *)

Lemma decimal_unavailable : Decimal.float_of_str "unavailable" = None.
Proof. reflexivity. Qed.

(** C1: three phases without current.  All six readings are stored and
    their apparent powers sum to zero; [update] for the current of phase 1,
    with the number 0.0, raises [ZeroDivisionError] out of the call: no
    clause of the [try] catches it, and nothing is logged. *)
Theorem zero_sum_raises :
  let m := (after Decimal.float_of_str "localhost" "dbus-mqtt-meter.py" 40 idle_all).1 in
  let out := update Decimal.float_of_str "hass/sensor/netz_i1/state" "0.0" m in
  (∃ r, readings_of (data m) = Some r ∧ sum_of r = 0%float)
  ∧ float_of_payload Decimal.float_of_str "0.0" = Some 0%float
  ∧ out.1.1 = Raise ZeroDivisionError
  ∧ out.2 = [].
Proof.
  split_and!; [|by vm_compute..].
  exists (mkReadings 0 230 0 230 0 230). by vm_compute.
Qed.

(** C8: a payload that is a number makes [update] raise: the sixth
    reading of three phases without current arrives, the sum of the
    apparent powers is zero and [ZeroDivisionError] leaves the call. *)
Theorem number_raises :
  let m := (after Decimal.float_of_str "localhost" "dbus-mqtt-meter.py" 40 idle_phases).1 in
  let out := update Decimal.float_of_str "hass/sensor/netz_u3/state" "230.0" m in
  float_of_payload Decimal.float_of_str "230.0" = Some 230%float
  ∧ out.1.1 = Raise ZeroDivisionError
  ∧ out.2 = [Publish "/Ac/L3/Voltage" 230].
Proof. split_and!; by vm_compute. Qed.

(** C2 fails on a fresh engine: the first current reading publishes a
    total power of 0.0 W. *)
Lemma fresh_engine_publishes_total :
  Forall (λ msg : string * string, sensor_of msg.1 ≠ K_einspeisung) []
  ∧ phase_topic "hass/sensor/netz_i1/state"
  ∧ float_of_payload Decimal.float_of_str "10.0" = Some 10%float
  ∧ published P_power
      (update Decimal.float_of_str "hass/sensor/netz_i1/state" "10.0" fresh).2
    = [0%float]
  ∧ ¬ no_power_published Decimal.float_of_str "localhost" "dbus-mqtt-meter.py" 40
        [] "hass/sensor/netz_i1/state" "10.0".
Proof.
  split_and!; [constructor | apply list_elem_of_here | by vm_compute.. |].
  intros (_ & H & _). vm_compute in H. discriminate H.
Qed.

(** C3 fails: the scenario publishes nothing to the power path of phase
    1. *)
Lemma scenario_misses_phases :
  published "/Ac/L1/Power"
    (after Decimal.float_of_str "localhost" "dbus-mqtt-meter.py" 40 scenario).2 = []
  ∧ ¬ scenario_expectation Decimal.float_of_str "localhost" "dbus-mqtt-meter.py" 40.
Proof.
  split; [by vm_compute|].
  intros (_ & p1 & p2 & p3 & H1 & _). vm_compute in H1.
  by apply elem_of_nil in H1.
Qed.

(** C3, as the code has it: the scenario publishes the total powers
    10000.0 W and 8000.0 W; of the six per-phase readings each of the
    first five ends in the logged [KeyError], and the sixth publishes
    8000.0/3 W to the power path of phase 3.  The power paths of phases 1
    and 2 get nothing. *)
Theorem scenario_publishes :
  (after Decimal.float_of_str "localhost" "dbus-mqtt-meter.py" 40 scenario).2 =
  [ Publish "/Ac/Power" 10000; Publish "/Ac/Power" 8000;
    Publish "/Ac/L1/Current" 10; WarnKeyError;
    Publish "/Ac/L1/Voltage" 230; WarnKeyError;
    Publish "/Ac/L2/Current" 10; WarnKeyError;
    Publish "/Ac/L2/Voltage" 230; WarnKeyError;
    Publish "/Ac/L3/Current" 10; WarnKeyError;
    Publish "/Ac/L3/Voltage" 230;
    Publish "/Ac/L3/Power" (8000 / 3) ].
Proof. by vm_compute. Qed.


(** There the exact values are apart as well: 8000 against 18000. *)
Lemma stale_phase_powers_exact :
  ¬ phase_sum_exact
      (after Decimal.float_of_str "localhost" "dbus-mqtt-meter.py" 40 stale_scenario).2.
Proof.
  intros (p1 & p2 & p3 & t & x1 & x2 & x3 & xt
          & H1 & H2 & H3 & Ht & V1 & V2 & V3 & Vt & Hn).
  vm_compute in H1, H2, H3, Ht.
  injection H1 as <-. injection H2 as <-. injection H3 as <-. injection Ht as <-.
  vm_compute in V1, V2, V3, Vt.
  injection V1 as <-. injection V2 as <-. injection V3 as <-. injection Vt as <-.
  vm_compute in Hn. by apply Hn.
Qed.

(** C6 fails for a total that is NaN: an import reading of [nan]
    delivered twice publishes the total power twice. *)
Lemma nan_republished :
  float_of_payload Decimal.float_of_str "nan" = Some nan
  ∧ float_of_payload Decimal.float_of_str "2.0" = Some 2%float
  ∧ published P_power (redelivery Decimal.float_of_str fresh "nan" "2.0")
    = [nan; nan]
  ∧ published P_power (redelivery Decimal.float_of_str fresh "nan" "2.0") ≠ [].
Proof. split_and!; by vm_compute. Qed.

(** ** The theorems at concrete messages *)

Lemma fresh_ready : ready fresh.
Proof. repeat constructor; by eexists. Defined.

Lemma last_write_wins_witness :
  let msgs := scenario ++ [("hass/sensor/netz_i1/state", "unavailable")] in
  Decimal.float_of_str "unavailable" = None
  ∧ data (run Decimal.float_of_str msgs fresh).1 !! "hass/sensor/netz_i1" =
      last_numeric Decimal.float_of_str "hass/sensor/netz_i1" msgs None
  ∧ last_numeric Decimal.float_of_str "hass/sensor/netz_i1" msgs None = Some 10%float.
Proof.
  intros msgs. split_and!; [reflexivity| |by vm_compute].
  apply (last_write_wins Decimal.float_of_str); reflexivity.
Defined.

Lemma unavailable_discarded_witness :
  Decimal.float_of_str "unavailable" = None
  ∧ update Decimal.float_of_str "hass/sensor/netz_i1/state" "unavailable" fresh =
    (Ok tt, fresh, [WarnUnavailable "hass/sensor/netz_i1"]).
Proof.
  split; [reflexivity|].
  apply (unavailable_discarded Decimal.float_of_str); reflexivity.
Defined.

Lemma total_power_derived_witness :
  let out := update Decimal.float_of_str T_bezug "10.0" fresh in
  ready fresh
  ∧ float_of_payload Decimal.float_of_str "10.0" = Some 10%float
  ∧ data out.1.2 = <[K_bezug := 10%float]> (data fresh)
  ∧ published P_power out.2 = [10000%float]
  ∧ service out.1.2 !! P_power = Some (PyFloat 10000).
Proof.
  intros out. split_and!; [exact fresh_ready | reflexivity |..];
    apply (total_power_derived Decimal.float_of_str T_bezug "10.0" 10 fresh 10 0 PyNone);
    first [exact fresh_ready | by vm_compute].
Defined.

Lemma total_power_never_skipped_witness :
  let out := update Decimal.float_of_str "hass/sensor/netz_i1/state" "10.0" fresh in
  Decimal.float_of_str "unavailable" = None
  ∧ float_of_payload Decimal.float_of_str "10.0" = Some 10%float
  ∧ ∃ b e old,
      data out.1.2 !! K_bezug = Some b
      ∧ data out.1.2 !! K_einspeisung = Some e
      ∧ service fresh !! P_power = Some old
      ∧ published P_power out.2 =
          (if Py.ne old (total_power_of b e) then [total_power_of b e] else [])
      ∧ service out.1.2 !! P_power = Some (held old (total_power_of b e))
      ∧ (Forall (λ msg : string * string,
                   sensor_of msg.1 ≠ K_bezug ∧ sensor_of msg.1 ≠ K_einspeisung)
           [("hass/sensor/netz_i1/state", "10.0")] →
         total_power_of b e = 0%float).
Proof.
  intros out. split_and!; [reflexivity..|].
  apply (total_power_never_skipped Decimal.float_of_str eq_refl
           "localhost" "dbus-mqtt-meter.py" 40 [] "hass/sensor/netz_i1/state" "10.0" 10).
  reflexivity.
Defined.

Lemma export_never_delivered_witness :
  let out := update Decimal.float_of_str "hass/sensor/netz_i1/state" "10.0" fresh in
  Decimal.float_of_str "unavailable" = None
  ∧ Forall (λ msg : string * string, sensor_of msg.1 ≠ K_einspeisung) []
  ∧ phase_topic "hass/sensor/netz_i1/state"
  ∧ float_of_payload Decimal.float_of_str "10.0" = Some 10%float
  ∧ data fresh !! K_einspeisung = Some 0%float
  ∧ ∃ b old,
      data fresh !! K_bezug = Some b
      ∧ service fresh !! P_power = Some old
      ∧ published P_power out.2 =
          (if Py.ne old (1000.0 * (b - 0))%float
           then [(1000.0 * (b - 0))%float] else [])
      ∧ (readings_of (<["hass/sensor/netz_i1" := 10%float]> (data fresh)) = None →
         out.1.1 = Ok tt
         ∧ WarnKeyError ∈ out.2
         ∧ ∀ path, path ∈ power_paths → published path out.2 = []).
Proof.
  intros out.
  split_and!; [reflexivity | constructor | apply list_elem_of_here | reflexivity |..];
    apply (export_never_delivered Decimal.float_of_str eq_refl
             "localhost" "dbus-mqtt-meter.py" 40 [] "hass/sensor/netz_i1/state" "10.0" 10);
    first [constructor; fail | apply list_elem_of_here | reflexivity].
Defined.

Lemma phase_power_derived_witness :
  let m := (after Decimal.float_of_str "localhost" "dbus-mqtt-meter.py" 40 scenario).1 in
  let out := update Decimal.float_of_str "hass/sensor/netz_i1/state" "10.0" m in
  ready m
  ∧ float_of_payload Decimal.float_of_str "10.0" = Some 10%float
  ∧ readings_of (data m) = Some (mkReadings 10 230 10 230 10 230)
  ∧ out.1.1 = Ok tt
  ∧ published P_power out.2 = []
  ∧ published "/Ac/L1/Power" out.2 = [(8000 / 3)%float]
  ∧ service out.1.2 !! "/Ac/L1/Power" = Some (PyFloat (8000 / 3)).
Proof.
  intros m out.
  assert (Hr : ready m) by (repeat constructor; eexists; by vm_compute).
  destruct (phase_power_derived Decimal.float_of_str
              "hass/sensor/netz_i1/state" "10.0" 10 m "1" 10 2
              (mkReadings 10 230 10 230 10 230) 10 230 (PyFloat 8000) PyNone)
    as (Hout & Htotal & Hphase & Hheld & _);
    [exact Hr | reflexivity | apply list_elem_of_here | by left | by vm_compute..|].
  split_and!; [exact Hr | reflexivity | by vm_compute | exact Hout |
               exact Htotal | exact Hphase | exact Hheld].
Defined.


Lemma change_suppression_witness :
  float_of_payload Decimal.float_of_str "10.0" = Some 10%float
  ∧ float_of_payload Decimal.float_of_str "2.0" = Some 2%float
  ∧ PrimFloat.eqb (1000.0 * (10 - 2)) (1000.0 * (10 - 2)) = true
  ∧ published P_power (set_path P_power 8000 fresh).2 = [8000%float]
  ∧ published P_power (redelivery Decimal.float_of_str fresh "10.0" "2.0") = [].
Proof.
  split_and!; [reflexivity..| |];
    apply (change_suppression Decimal.float_of_str
             "localhost" "dbus-mqtt-meter.py" 40 [] P_power 8000 "10.0" "2.0" 10 2);
    first [ repeat first [apply list_elem_of_here | apply list_elem_of_further]; fail
          | reflexivity ].
Defined.

(** ** Topics and subscriptions *)

Lemma string_length_app (s t : string) :
  String.length (s +:+ t) = String.length s + String.length t.
Proof. induction s as [|c s IH]; simpl; [done|]. by rewrite IH. Qed.

Lemma substring_app_prefix (s t : string) :
  String.substring 0 (String.length s) (s +:+ t) = s.
Proof.
  induction s as [|c s IH]; simpl.
  - by destruct t.
  - by rewrite IH.
Qed.

(** X1: [update] recovers from a topic [key + "/state"], as [_on_connect]
    builds it, the sensor key itself. *)
Theorem topic_round_trip key : sensor_of (key +:+ "/state") = key.
Proof.
  unfold sensor_of, Py.drop_last6. rewrite string_length_app. simpl.
  replace (String.length key + 6 - 6) with (String.length key) by lia.
  apply substring_app_prefix.
Qed.

Lemma data_map_items_eq : data_map = list_to_map data_map_items.
Proof. reflexivity. Qed.

Lemma data_map_keys sensor :
  is_Some (data_map !! sensor) ↔ sensor ∈ data_map_items.*1.
Proof.
  rewrite data_map_items_eq. split.
  - intros [path Hpath]. apply elem_of_list_to_map_2 in Hpath.
    apply list_elem_of_fmap. by exists (sensor, path).
  - intros Hin. apply list_elem_of_fmap in Hin as ([k path] & -> & Hin).
    exists path. apply elem_of_list_to_map_1; [|done].
    by apply (bool_decide_unpack _).
Qed.

(** X2: the topics [_on_connect] subscribes to are, without repetition,
    the topics of the sensors [update] forwards (the keys of [data_map])
    and of the two power-balance sensors, each with QoS 0; none of the
    ten is both forwarded and a power-balance sensor. *)
Theorem subscriptions sensor :
  (sensor +:+ "/state" ∈ on_connect.*1 ↔
     is_Some (data_map !! sensor) ∨ sensor = K_bezug ∨ sensor = K_einspeisung)
  ∧ ((sensor +:+ "/state", 0%Z) ∈ on_connect ↔ sensor +:+ "/state" ∈ on_connect.*1)
  ∧ NoDup on_connect.*1
  ∧ length on_connect = 10
  ∧ ¬ (is_Some (data_map !! sensor) ∧ (sensor = K_bezug ∨ sensor = K_einspeisung)).
Proof.
  assert (Hsub : ∀ t, t ∈ on_connect.*1 ↔
            ∃ k, t = k +:+ "/state" ∧ k ∈ data_map_items.*1 ++ [K_bezug; K_einspeisung]).
  { intros t. unfold on_connect. rewrite <- list_fmap_compose.
    by rewrite list_elem_of_fmap. }
  assert (Hkey : sensor +:+ "/state" ∈ on_connect.*1 ↔
            sensor ∈ data_map_items.*1 ++ [K_bezug; K_einspeisung]).
  { rewrite Hsub. split; [|by eauto].
    intros (k & Heq & Hk).
    apply (f_equal sensor_of) in Heq. rewrite !topic_round_trip in Heq.
    by subst. }
  split_and!.
  - rewrite Hkey, elem_of_app, data_map_keys, !elem_of_cons, elem_of_nil.
    tauto.
  - split.
    + intros Hin. apply list_elem_of_fmap. by exists (sensor +:+ "/state", 0%Z).
    + intros Hin. apply list_elem_of_fmap in Hin as ([t q] & Ht & Hin).
      simpl in Ht. subst t.
      unfold on_connect in *. apply list_elem_of_fmap in Hin as (k & [= Hk ->] & Hin).
      rewrite Hk. apply list_elem_of_fmap. by exists k.
  - by apply (bool_decide_unpack _).
  - reflexivity.
  - intros [[path Hpath] Hbal]. apply elem_of_list_to_map_2 in Hpath.
    destruct Hbal as [-> | ->];
      repeat (apply elem_of_cons in Hpath as [Hpath|Hpath]; [discriminate|]);
      by apply elem_of_nil in Hpath.
Qed.

(** ** What [update] writes, raises and keeps *)

Lemma last_char_app (s t : string) : t ≠ "" → last_char (s +:+ t) = last_char t.
Proof.
  intros Ht. induction s as [|c s IH]; [done|].
  simpl. rewrite IH. destruct (s +:+ t) eqn:Hst; [|done].
  destruct s; [by subst|done].
Qed.

Lemma data_map_path_not_phase sensor path phase_no :
  data_map !! sensor = Some path → path ≠ "/Ac/L" +:+ phase_no +:+ "/Power".
Proof.
  intros H Heq. apply (f_equal last_char) in Heq.
  rewrite (last_char_app "/Ac/L" (phase_no +:+ "/Power")) in Heq
    by by destruct phase_no.
  rewrite (last_char_app phase_no "/Power") in Heq by done.
  apply elem_of_list_to_map_2 in H.
  repeat (apply elem_of_cons in H as [[= -> ->]|H]; [discriminate Heq|]).
  by apply elem_of_nil in H.
Qed.

Lemma safe_data_set (I : Meter → Prop) E Q key value :
  (∀ m, I m → I (with_data (insert key value) m)) →
  safe I E Q (data_set key value).
Proof. intros HI m Hm. simpl. split_and!; [by apply HI | constructor | done]. Qed.

Section Extras.

Variable py_float : string → option float.
Variables (host file : string) (inst : Z).

(** [update] keeps an invariant that storing a reading and writing one of
    the paths [update] writes keep, and emits only events that such writes
    and the two warnings satisfy. *)
Lemma update_safe_written (I : Meter → Prop) (Q : event → Prop) topic payload :
  (∀ m key x, I m → I (with_data (insert key x) m)) →
  (∀ m path x, written_path path → I m → is_Some (service m !! path) →
     I (with_service (insert path (PyFloat x)) m) ∧ Q (Publish path x)) →
  Q WarnKeyError → (∀ s, Q (WarnUnavailable s)) →
  safe I (λ e, e = ValueError ∨ e = ZeroDivisionError) Q
    (update py_float topic payload).
Proof.
  intros Hd Hs Hk Hu. unfold update.
  apply (safe_try I _ Q (λ _, True)).
  - unfold update_body, parse, forward_and_derive, phase_branch.
    repeat first
      [ apply safe_data_set; intros; by apply Hd
      | apply safe_set_path; [done|intros; apply Hs; [|done..]]
      | match goal with
        | |- safe _ _ _ (match data_map !! ?s with _ => _ end) =>
            destruct (data_map !! s) eqn:?
        end
      | safe_step ]; try done.
    + left. by eexists.
    + right. by left.
    + right. right. by eexists.
  - intros e _. unfold update_handler.
    destruct e; repeat safe_step; auto.
Qed.

(** X3: [update] raises [ValueError] exactly for a payload that is
    neither a number nor "unavailable"; it then leaves the object as it
    was and emits nothing. *)
Theorem value_error_iff topic payload m :
  let out := update py_float topic payload m in
  (out.1.1 = Raise ValueError ↔
     float_of_payload py_float payload = None ∧ payload ≠ "unavailable")
  ∧ (out.1.1 = Raise ValueError → out = (Raise ValueError, m, [])).
Proof.
  intros out.
  assert (Hiff : out.1.1 = Raise ValueError →
            float_of_payload py_float payload = None ∧ payload ≠ "unavailable").
  { intros Hr. by destruct (update_raises py_float _ _ _ _ Hr) as [(_ & ? & ?)|[? _]]. }
  assert (Hout : float_of_payload py_float payload = None ∧ payload ≠ "unavailable" →
            out = (Raise ValueError, m, [])).
  { intros [Hnone Hne]. unfold out. rewrite update_not_number by done.
    by rewrite decide_False. }
  split; [split|]; [done| |by auto].
  intros H. by rewrite (Hout H).
Qed.

(** X4: a [KeyError] never leaves [update], and a [ZeroDivisionError]
    leaves it only for a payload that is a number. *)
Theorem key_error_contained topic payload m :
  let out := update py_float topic payload m in
  out.1.1 ≠ Raise KeyError
  ∧ (out.1.1 = Raise ZeroDivisionError → is_Some (float_of_payload py_float payload)).
Proof.
  intros out. split.
  - intros Hr. by destruct (update_raises py_float _ _ _ _ Hr) as [[? _]|[? _]].
  - intros Hr. by destruct (update_raises py_float _ _ _ _ Hr) as [[? _]|[_ ?]].
Qed.

(** What follows the forwarding step writes and publishes nothing at the
    path the reading was forwarded to. *)
Lemma derive_keeps_forwarded sensor path payload x :
  data_map !! sensor = Some path →
  safe (λ m, service m !! path = Some x) (λ e, e = ZeroDivisionError)
    (silent_on path)
    (try_except (derive sensor) (update_handler sensor payload)).
Proof.
  intros Hpath.
  assert (Hpower : P_power ≠ path).
  { apply data_map_path in Hpath as (_ & Hne & _). congruence. }
  assert (Hphase : ∀ n, "/Ac/L" +:+ n +:+ "/Power" ≠ path).
  { intros n Heq. by eapply data_map_path_not_phase. }
  apply (safe_try _ _ _ (λ e, e ≠ ValueError)).
  - unfold derive, phase_branch.
    repeat safe_step; try done.
    + intros m Hm _. simpl. by rewrite lookup_insert_ne.
    + intros e. unfold Py.truediv. by case_match; intros [= <-].
    + intros m Hm _. simpl. rewrite lookup_insert_ne by apply Hphase.
      split; [done|apply Hphase].
  - intros e He. by apply update_handler_safe.
Qed.

Lemma forwarded_gate topic payload v m path old :
  let out := update py_float topic payload m in
  ready m →
  float_of_payload py_float payload = Some v →
  data_map !! sensor_of topic = Some path →
  service m !! path = Some old →
  published path out.2 = (if Py.ne old v then [v] else [])
  ∧ service out.1.2 !! path = Some (held old v).
Proof.
  intros out Hr Hv Hpath Hold. unfold out.
  rewrite (update_number _ _ _ v) by done.
  set (m1 := with_data (insert (sensor_of topic) v) m).
  assert (Hfw : forwarded (sensor_of topic) v m1
                = (gate_state path old v m1, gate path old v)).
  { unfold forwarded. rewrite Hpath. simpl. by rewrite Hold. }
  assert (Hheld : service (gate_state path old v m1) !! path = Some (held old v)).
  { rewrite (gate_state_service _ old) by done. by rewrite decide_True. }
  destruct (derive_keeps_forwarded (sensor_of topic) path payload (held old v)
              Hpath _ Hheld) as (HI & HQ & _).
  unfold try_except in *.
  change (forward_and_derive (sensor_of topic) v) with
    (bind (match data_map !! sensor_of topic with
           | Some path => set_path path v
           | None => ret tt
           end) (λ _, derive (sensor_of topic))).
  rewrite forwarded_eq by done. rewrite Hfw. simpl.
  destruct (derive (sensor_of topic) (gate_state path old v m1))
    as [[[[]|e] m3] w3]; simpl in *.
  - split; [|done].
    by rewrite published_app, published_gate, (published_silent _ w3), app_nil_r.
  - destruct (update_handler (sensor_of topic) payload e m3) as [[r m4] w4].
    simpl in *. split; [|done].
    rewrite <- app_assoc, published_app, published_gate.
    by rewrite (published_silent _ (w3 ++ w4)), app_nil_r.
Qed.

(** X5: a number for a sensor of [data_map] goes to its output path
    through the gate of [set_path], before anything is derived: it is
    published there if it differs from what the path holds, the path
    holds it (or an equal value) after the call, and nothing else of the
    call touches that path, whether the call then returns, logs a
    [KeyError] or raises. *)
Theorem reading_forwarded topic payload v m path old :
  let out := update py_float topic payload m in
  ready m →
  float_of_payload py_float payload = Some v →
  data_map !! sensor_of topic = Some path →
  service m !! path = Some old →
  published path out.2 = (if Py.ne old v then [v] else [])
  ∧ service out.1.2 !! path = Some (if Py.ne old v then PyFloat v else old).
Proof. apply forwarded_gate. Qed.

(** *** The shape of the service *)

Lemma written_registered path :
  written_path path →
  is_Some (service (init host file inst) !! path) →
  path ∈ output_paths.
Proof.
  intros [[sensor Hs]|[->|[n ->]]] [x Hx].
  - by apply data_map_path in Hs as (? & _).
  - repeat first [apply list_elem_of_here | apply list_elem_of_further].
  - apply elem_of_list_to_map_2 in Hx. unfold initial_paths in Hx.
    repeat (apply elem_of_cons in Hx as [Heq|Hx];
      [apply (f_equal fst) in Heq; cbn [fst] in Heq;
       first [ rewrite Heq;
               repeat first [apply list_elem_of_here | apply list_elem_of_further];
               fail
             | simpl in Heq; discriminate Heq ]|]).
    by apply elem_of_nil in Hx.
Qed.

Lemma silent_outside path w :
  path ∉ output_paths → Forall to_output w → published path w = [].
Proof.
  intros Hpath Hw. apply published_silent.
  eapply Forall_impl; [exact Hw|].
  intros [p x| |]; simpl; [|done..]. by intros Hp ->.
Qed.

(** X6: whatever messages arrive, the service keeps the paths
    [__init__] registered, no more and no less; [update] publishes to
    none but the twelve output paths, and the other entries (process
    name and version, connection, device instance, product, firmware,
    serial, connected) keep the values [__init__] gave them. *)
Theorem service_shape msgs :
  let st := after py_float host file inst msgs in
  dom (service st.1) = dom (service (init host file inst))
  ∧ Forall to_output st.2
  ∧ ∀ p, p ∉ output_paths →
      service st.1 !! p = service (init host file inst) !! p.
Proof.
  intros st.
  set (I := λ m : Meter,
    ∀ p, is_Some (service m !! p) ↔ is_Some (service (init host file inst) !! p)).
  assert (Hrun : I st.1 ∧ Forall to_output st.2).
  { unfold st, after.
    induction msgs as [|msg msgs [IHI IHQ]] using rev_ind; [by split|].
    rewrite run_snoc, deliver_meter, deliver_events.
    destruct (update_safe_written I to_output msg.1 msg.2) with
      (m := (run py_float msgs (init host file inst)).1) as (HI & HQ & _);
      try done.
    - intros m path x Hw Hm Hreg. split.
      + intros p. rewrite <- (Hm p). simpl. rewrite lookup_insert.
        case_decide; [by subst|done].
      + simpl. apply written_registered; [done|]. by apply Hm.
    - split; [done|]. by apply Forall_app. }
  destruct Hrun as [HI HQ]. split_and!; [|done|].
  - apply set_eq. intros p. rewrite !elem_of_dom. apply HI.
  - intros p Hp.
    pose proof (run_tracks py_float msgs (init host file inst) p) as Htr.
    fold (after py_float host file inst msgs) in Htr. fold st in Htr.
    unfold last_published in Htr.
    by rewrite (silent_outside p st.2) in Htr.
Qed.

(** X7: after any messages, every path of the service holds the value
    last published to it, and the value [__init__] gave it when nothing
    was published to it. *)
Theorem service_holds_last_published msgs path :
  let st := after py_float host file inst msgs in
  service st.1 !! path =
  match last_published path st.2 with
  | Some x => Some (PyFloat x)
  | None => service (init host file inst) !! path
  end.
Proof. apply (run_tracks py_float msgs (init host file inst)). Qed.

(** X8: [set_path] called twice in a row with the same value, which is
    not NaN, does the second time what it did the first time (it
    returns, or raises [KeyError] for a path that is not registered) but
    changes nothing and publishes nothing. *)
Theorem set_path_idempotent path v m :
  let first := set_path path v m in
  PrimFloat.eqb v v = true →
  set_path path v first.1.2 = (first.1.1, first.1.2, []).
Proof.
  intros first Hv. unfold first. rewrite !set_path_eq.
  destruct (service m !! path) as [old|] eqn:Hold; simpl.
  - rewrite (gate_state_service _ old) by done. rewrite decide_True by done.
    unfold gate_state at 1, gate at 1. by rewrite ne_held.
  - by rewrite Hold.
Qed.

(** X9: two messages for different sensors leave the same readings in
    either order. *)
Theorem readings_commute t1 p1 t2 p2 m :
  sensor_of t1 ≠ sensor_of t2 →
  data (run py_float [(t1, p1); (t2, p2)] m).1 =
  data (run py_float [(t2, p2); (t1, p1)] m).1.
Proof.
  intros Hne. unfold run. simpl. rewrite !deliver_meter. simpl.
  rewrite !update_data.
  destruct (float_of_payload py_float p1), (float_of_payload py_float p2);
    try done.
  by apply insert_insert_ne.
Qed.

(** *** The outcome of [update] for a number *)

Lemma phase_sensor_cases sensor :
  sensor ∈ phase_sensors →
  ∃ n, n ∈ ["1"; "2"; "3"]
    ∧ Py.re_search_digit sensor = Some n
    ∧ "/Ac/L" +:+ n +:+ "/Power" ∈ power_paths.
Proof.
  intros Hin. unfold phase_sensors in Hin.
  repeat (apply elem_of_cons in Hin as [->|Hin];
    [eexists; split_and!; [|reflexivity|];
     repeat first [apply list_elem_of_here | apply list_elem_of_further]|]).
  by apply elem_of_nil in Hin.
Qed.

Lemma readings_phase (d : gmap string float) r n :
  readings_of d = Some r → n ∈ ["1"; "2"; "3"] →
  ∃ i u, d !! ("hass/sensor/netz_i" +:+ n) = Some i
       ∧ d !! ("hass/sensor/netz_u" +:+ n) = Some u.
Proof.
  unfold readings_of. intros H Hn.
  repeat (match type of H with
          | context [d !! ?key] => destruct (d !! key) eqn:?; simpl in H; [|done]
          end).
  repeat (apply elem_of_cons in Hn as [->|Hn]; [by eauto|]).
  by apply elem_of_nil in Hn.
Qed.

Lemma gate_no_warning path old value ev :
  ev ∈ gate path old value → ev = Publish path value.
Proof.
  unfold gate. destruct (Py.ne old value).
  - by intros ->%list_elem_of_singleton.
  - by intros ?%elem_of_nil.
Qed.

Lemma forwarded_no_warning sensor value m :
  WarnKeyError ∉ (forwarded sensor value m).2.
Proof.
  unfold forwarded. repeat case_match; simpl; try apply not_elem_of_nil.
  by intros ?%gate_no_warning.
Qed.

(** X10: the three outcomes of [update] for a per-phase sensor and a
    number, after any messages.  While one of the six per-phase readings
    is missing, the call returns with the [KeyError] logged last.  With
    all six stored it raises [ZeroDivisionError] when the apparent powers
    sum to zero, and returns otherwise; in both cases nothing is logged.
    Only in the last case can a per-phase power be published. *)
Theorem phase_update_outcome msgs topic payload v :
  let m := (after py_float host file inst msgs).1 in
  let d := <[sensor_of topic := v]> (data m) in
  let out := update py_float topic payload m in
  phase_topic topic →
  float_of_payload py_float payload = Some v →
  match readings_of d with
  | None =>
      out.1.1 = Ok tt ∧ last out.2 = Some WarnKeyError
      ∧ ∀ path, path ∈ power_paths → published path out.2 = []
  | Some r =>
      if PrimFloat.eqb (r_i1 r * r_u1 r + r_i2 r * r_u2 r + r_i3 r * r_u3 r) 0
      then (out.1.1 = Raise ZeroDivisionError ∧ (WarnKeyError ∉ out.2)
            ∧ ∀ path, path ∈ power_paths → published path out.2 = [])
      else (out.1.1 = Ok tt ∧ WarnKeyError ∉ out.2)
  end.
Proof.
  intros m d out Htopic Hv.
  destruct (phase_sensor_cases _ Htopic) as (n & Hn & Hdigit & Hpath).
  destruct (stored_balance py_float host file inst topic v msgs)
    as (b & e & Hb & He).
  fold m in Hb, He. fold d in Hb, He.
  pose proof (after_ready py_float host file inst msgs) as Hr. fold m in Hr.
  destruct (ready_lookup m P_power Hr) as [old Hold].
  { repeat first [apply list_elem_of_here | apply list_elem_of_further]. }
  assert (Hsilent : ∀ path, path ∈ power_paths →
    published path
      ((forwarded (sensor_of topic) v
          (with_data (insert (sensor_of topic) v) m)).2
       ++ gate P_power old (total_power_of b e)) = []).
  { intros path Hin. rewrite published_app.
    rewrite (proj2 (forwarded_power_path _ _ _ _ Hin)).
    rewrite published_gate_ne; [done|].
    intros <-. by apply power_not_phase in Hin. }
  assert (Hquiet : WarnKeyError ∉
    (forwarded (sensor_of topic) v
       (with_data (insert (sensor_of topic) v) m)).2
    ++ gate P_power old (total_power_of b e)).
  { rewrite elem_of_app. intros [H|H].
    - by apply forwarded_no_warning in H.
    - by apply gate_no_warning in H. }
  destruct (readings_of d) as [r|] eqn:Hrd.
  - change (r_i1 r * r_u1 r + r_i2 r * r_u2 r + r_i3 r * r_u3 r)%float
      with (sum_of r).
    destruct (PrimFloat.eqb (sum_of r) 0) eqn:Hz.
    + unfold out.
      rewrite (update_phase_zero py_float topic payload v b e old m n
                 Hr Hv Hb He Hold Hdigit r Hrd Hz).
      simpl. auto.
    + destruct (readings_phase d r n Hrd Hn) as (i & u & Hi & Hu).
      destruct (ready_lookup m ("/Ac/L" +:+ n +:+ "/Power") Hr) as [oldn Holdn].
      { clear -Hpath. unfold power_paths, output_paths in *.
        repeat (apply elem_of_cons in Hpath as [->|Hpath];
          [repeat first [apply list_elem_of_here | apply list_elem_of_further]|]).
        by apply elem_of_nil in Hpath. }
      unfold out.
      rewrite (update_phase_publish py_float topic payload v b e old m n
                 Hr Hv Hb He Hold Hdigit r i u oldn Hpath Hrd Hz Hi Hu Holdn).
      simpl. split; [done|].
      rewrite app_assoc, elem_of_app. intros [H|H]; [done|].
      by apply gate_no_warning in H.
  - unfold out.
    rewrite (update_phase_missing py_float topic payload v b e old m n
               Hr Hv Hb He Hold Hdigit Hrd).
    simpl. split_and!; [done| |].
    + by rewrite app_assoc, last_snoc.
    + intros path Hin.
      by rewrite app_assoc, published_app, Hsilent, published_warning.
Qed.

(** X11: for a sensor whose key holds no digit (the two energy counters
    and the two power-balance sensors), [update] with a number, after
    any messages, returns: nothing is logged, and what it emits is the
    forwarded reading, if the gate lets it through, followed by the
    total power, if the gate lets it through. *)
Theorem plain_update_outcome msgs topic payload v :
  let m := (after py_float host file inst msgs).1 in
  let out := update py_float topic payload m in
  Py.re_search_digit (sensor_of topic) = None →
  float_of_payload py_float payload = Some v →
  ∃ b e old,
    data out.1.2 !! K_bezug = Some b
    ∧ data out.1.2 !! K_einspeisung = Some e
    ∧ service m !! P_power = Some old
    ∧ out.1.1 = Ok tt
    ∧ out.2 =
        (forwarded (sensor_of topic) v (with_data (insert (sensor_of topic) v) m)).2
        ++ (if Py.ne old (1000.0 * (b - e))%float
            then [Publish P_power (1000.0 * (b - e))%float] else []).
Proof.
  intros m out Hdigit Hv.
  destruct (stored_balance py_float host file inst topic v msgs)
    as (b & e & Hb & He).
  fold m in Hb, He.
  pose proof (after_ready py_float host file inst msgs) as Hr. fold m in Hr.
  destruct (ready_lookup m P_power Hr) as [old Hold].
  { repeat first [apply list_elem_of_here | apply list_elem_of_further]. }
  exists b, e, old. unfold out.
  rewrite update_data, Hv.
  rewrite (update_number_ready py_float topic payload v m b e old) by done.
  unfold try_except, phase_step. rewrite Hdigit. simpl.
  by rewrite app_nil_r.
Qed.

(** *** The same message once more *)

Lemma with_data_insert_id m key x :
  data m !! key = Some x → with_data (insert key x) m = m.
Proof.
  destruct m as [i s d]. unfold with_data. simpl. intros H.
  by rewrite insert_id.
Qed.

Lemma gate_closed path q c m :
  Py.ne q c = false → gate_state path q c m = m ∧ gate path q c = [].
Proof. intros H. unfold gate_state, gate. by rewrite H. Qed.

Lemma held_closed old c :
  (Py.ne old c = true → PrimFloat.eqb c c = true) →
  Py.ne (held old c) c = false.
Proof.
  intros H. unfold held. destruct (Py.ne old c) eqn:Hne; [|done].
  simpl. by rewrite H.
Qed.

Lemma published_number path w x :
  Forall publishes_number w → x ∈ published path w →
  PrimFloat.eqb x x = true.
Proof.
  intros Hw Hx. unfold published in Hx.
  apply list_elem_of_omap in Hx as (ev & Hev & Hsome).
  rewrite Forall_forall in Hw. specialize (Hw ev Hev).
  destruct ev as [p y| |]; [|done..]. simpl in *.
  case_decide; [|done]. by injection Hsome as <-.
Qed.

Lemma gate_number path old c w1 w2 :
  Forall publishes_number (w1 ++ gate path old c ++ w2) →
  Py.ne old c = true → PrimFloat.eqb c c = true.
Proof.
  intros Hw Hne. apply Forall_app in Hw as [_ Hw].
  apply Forall_app in Hw as [Hw _]. unfold gate in Hw. rewrite Hne in Hw.
  apply Forall_inv in Hw. exact Hw.
Qed.

(** On an object whose forwarded path and total-power path hold what
    the message gives, [update] comes down to its last step. *)
Lemma update_settled topic payload v m b e q :
  let sensor := sensor_of topic in
  let total := total_power_of b e in
  ready m →
  float_of_payload py_float payload = Some v →
  data m !! sensor = Some v →
  data m !! K_bezug = Some b → data m !! K_einspeisung = Some e →
  service m !! P_power = Some q → Py.ne q total = false →
  (∀ fp, data_map !! sensor = Some fp →
     ∃ qf, service m !! fp = Some qf ∧ Py.ne qf v = false) →
  update py_float topic payload m =
  try_except (phase_step sensor total) (update_handler sensor payload) m.
Proof.
  intros sensor total Hr Hv Hs Hb He Hq Hc Hfp.
  rewrite (update_number_ready py_float topic payload v m b e q);
    [|done|done|by rewrite insert_id..|done].
  fold sensor total. rewrite with_data_insert_id by done.
  assert (forwarded sensor v m = (m, [])) as ->.
  { unfold forwarded. destruct (data_map !! sensor) as [fp|] eqn:Hpath; [|done].
    destruct (Hfp fp eq_refl) as (qf & -> & Hqf).
    by destruct (gate_closed fp qf v m Hqf) as [-> ->]. }
  simpl. destruct (gate_closed P_power q total m Hc) as [-> ->].
  by destruct (try_except _ _ m) as [[r m'] w].
Qed.

(** X12: the same message delivered twice in a row, after any messages,
    for a per-phase sensor or a sensor whose key holds no digit and with
    a number.  When no value the first delivery published is NaN, the
    second delivery ends as the first did, leaves the object as the
    first left it and publishes nothing. *)
Theorem same_message_again msgs topic payload v :
  let m := (after py_float host file inst msgs).1 in
  let first := update py_float topic payload m in
  let second := update py_float topic payload first.1.2 in
  phase_topic topic ∨ Py.re_search_digit (sensor_of topic) = None →
  float_of_payload py_float payload = Some v →
  Forall publishes_number first.2 →
  second.1.1 = first.1.1
  ∧ second.1.2 = first.1.2
  ∧ ∀ path, published path second.2 = [].
Proof.
  intros m first second Htopic Hv Hnum.
  set (sensor := sensor_of topic). set (d := <[sensor := v]> (data m)).
  destruct (stored_balance py_float host file inst topic v msgs)
    as (b & e & Hb & He).
  fold m in Hb, He. fold sensor in Hb, He. fold d in Hb, He.
  pose proof (after_ready py_float host file inst msgs) as Hr. fold m in Hr.
  destruct (ready_lookup m P_power Hr) as [old Hold].
  { repeat first [apply list_elem_of_here | apply list_elem_of_further]. }
  set (total := total_power_of b e).
  (* the object the first delivery leaves *)
  assert (Hr4 : ready first.1.2) by by apply update_ready.
  assert (Hd4 : data first.1.2 = d).
  { unfold first. by rewrite update_data, Hv. }
  destruct (total_power_gate py_float topic payload v m b e old)
    as [Hpub Hserv]; [done..|].
  fold first total in Hpub, Hserv.
  assert (Hct : Py.ne (held old total) total = false).
  { apply held_closed. intros Hne. rewrite Hne in Hpub.
    apply (published_number P_power first.2); [done|].
    rewrite Hpub. apply list_elem_of_here. }
  assert (Hfw : ∀ fp, data_map !! sensor = Some fp →
            ∃ qf, service first.1.2 !! fp = Some qf ∧ Py.ne qf v = false).
  { intros fp Hfp.
    destruct (ready_lookup m fp Hr) as [oldf Holdf].
    { by apply data_map_path in Hfp as (? & _). }
    destruct (forwarded_gate topic payload v m fp oldf) as [Hpf Hsf]; [done..|].
    fold first in Hpf, Hsf. eexists. split; [exact Hsf|].
    apply held_closed. intros Hne. rewrite Hne in Hpf.
    apply (published_number fp first.2); [done|].
    rewrite Hpf. apply list_elem_of_here. }
  assert (Hsecond : second =
            try_except (phase_step sensor total) (update_handler sensor payload)
              first.1.2).
  { unfold second.
    apply (update_settled topic payload v first.1.2 b e (held old total));
      rewrite ?Hd4; try done.
    unfold d. by rewrite lookup_insert_eq. }
  rewrite Hsecond. clear Hsecond second.
  unfold try_except, phase_step.
  destruct Htopic as [Htopic|Hdigit].
  - destruct (phase_sensor_cases _ Htopic) as (n & Hn & Hdigit & Hpath).
    change (Py.re_search_digit sensor = Some n) in Hdigit. rewrite Hdigit.
    destruct (readings_of d) as [r|] eqn:Hrd.
    + destruct (PrimFloat.eqb (sum_of r) 0) eqn:Hz.
      * rewrite (phase_branch_zero n total _ r) by by rewrite ?Hd4.
        simpl. split_and!; [|done..]. unfold first.
        by rewrite (update_phase_zero py_float topic payload v b e old m n
                      Hr Hv Hb He Hold Hdigit r Hrd Hz).
      * destruct (readings_phase d r n Hrd Hn) as (i & u & Hi & Hu).
        destruct (ready_lookup m ("/Ac/L" +:+ n +:+ "/Power") Hr) as [oldn Holdn].
        { clear -Hpath. unfold power_paths, output_paths in *.
          repeat (apply elem_of_cons in Hpath as [->|Hpath];
            [repeat first [apply list_elem_of_here | apply list_elem_of_further]|]).
          by apply elem_of_nil in Hpath. }
        pose proof (update_phase_publish py_float topic payload v b e old m n
                      Hr Hv Hb He Hold Hdigit r i u oldn Hpath Hrd Hz Hi Hu Holdn)
          as Hfirst.
        fold first sensor total in Hfirst.
        set (power := phase_power_of total (sum_of r) i u) in *.
        assert (Hcn : Py.ne (held oldn power) power = false).
        { apply held_closed. rewrite Hfirst in Hnum. simpl in Hnum.
          intros Hne. eapply (gate_number _ oldn power _ []); [|exact Hne].
          by rewrite app_nil_r, <- app_assoc. }
        assert (Hsn : service first.1.2 !! ("/Ac/L" +:+ n +:+ "/Power")
                      = Some (held oldn power)).
        { rewrite Hfirst. simpl. rewrite (gate_state_service _ oldn).
          - by rewrite decide_True.
          - by rewrite (phase_state_service topic v b e old m Hold). }
        rewrite (phase_branch_publish n total _ r i u (held oldn power));
          rewrite ?Hd4; try done.
        destruct (gate_closed ("/Ac/L" +:+ n +:+ "/Power") (held oldn power)
                    power first.1.2 Hcn) as [Hgs Hg].
        fold power. rewrite Hgs, Hg. split_and!; [|done..].
        by rewrite Hfirst.
    + rewrite phase_branch_missing by by rewrite Hd4.
      simpl. split_and!; [|done..]. unfold first.
      by rewrite (update_phase_missing py_float topic payload v b e old m n
                    Hr Hv Hb He Hold Hdigit Hrd).
  - change (Py.re_search_digit sensor = None) in Hdigit. rewrite Hdigit.
    simpl. split_and!; [|done..].
    unfold first.
    rewrite (update_number_ready py_float topic payload v m b e old) by done.
    unfold try_except, phase_step. fold sensor. by rewrite Hdigit.
Qed.

End Extras.

(** ** The name of the service *)

Lemma pretty_N_go_head x s :
  (0 < x)%N → ∃ c s', pretty_N_go x s = String c s' ∧ c ≠ "0"%char.
Proof.
  revert s. induction (N.lt_wf_0 x) as [x _ IH]. intros s Hx.
  rewrite pretty_N_go_step by done.
  destruct (decide (x `div` 10 = 0)%N) as [Hd|Hd].
  - rewrite Hd, pretty_N_go_0. eexists _, _. split; [done|].
    apply N.div_small_iff in Hd; [|done].
    rewrite N.mod_small by done. intros Hc.
    assert (x = 0)%N; [|lia].
    apply pretty_N_char_inj; [done|done|exact Hc].
  - apply IH; [|by apply N.neq_0_lt_0]. apply N.div_lt; lia.
Qed.

Lemma pretty_Z_head (z : Z) c s :
  pretty z = String c s → c = "0"%char → z = 0%Z.
Proof.
  destruct z as [|p|p]; [done|..]; unfold pretty, pretty_Z.
  - unfold pretty, pretty_positive, pretty, pretty_N.
    rewrite decide_False by done.
    destruct (pretty_N_go_head (Npos p) "") as (c' & s' & -> & Hc); [lia|].
    by intros [= <- _] ->.
  - simpl. by intros [= <- _].
Qed.

Lemma format_02d_inj n1 n2 : format_02d n1 = format_02d n2 → n1 = n2.
Proof.
  unfold format_02d. simpl.
  destruct (String.length (pretty n1) <? 2)%nat eqn:H1;
    destruct (String.length (pretty n2) <? 2)%nat eqn:H2; intros Heq.
  - injection Heq as Heq. by apply (inj pretty).
  - symmetry in Heq. apply pretty_Z_head in Heq; [|done]. by subst.
  - apply pretty_Z_head in Heq; [|done]. by subst.
  - by apply (inj pretty).
Qed.

(** X13: for a given base, [__init__] gives meters with different
    instance numbers different service names. *)
Theorem service_name_inj base i1 i2 :
  service_name base i1 = service_name base i2 → i1 = i2.
Proof.
  unfold service_name. intros Heq.
  apply (inj (String.app base)) in Heq.
  apply (inj (String.app ".mqtt_")) in Heq.
  by apply format_02d_inj.
Qed.

(** ** The further properties at concrete messages *)

Lemma reading_forwarded_witness :
  let out := update Decimal.float_of_str "hass/sensor/netz_i1/state" "10.0" fresh in
  ready fresh
  ∧ float_of_payload Decimal.float_of_str "10.0" = Some 10%float
  ∧ data_map !! "hass/sensor/netz_i1" = Some "/Ac/L1/Current"
  ∧ service fresh !! "/Ac/L1/Current" = Some PyNone
  ∧ published "/Ac/L1/Current" out.2 = [10%float]
  ∧ service out.1.2 !! "/Ac/L1/Current" = Some (PyFloat 10).
Proof.
  intros out. split_and!; [exact fresh_ready | reflexivity.. | |];
    apply (reading_forwarded Decimal.float_of_str
             "hass/sensor/netz_i1/state" "10.0" 10 fresh "/Ac/L1/Current" PyNone);
    first [exact fresh_ready | reflexivity].
Defined.

Lemma set_path_idempotent_witness :
  PrimFloat.eqb 10 10 = true
  ∧ set_path P_power 10 (set_path P_power 10 fresh).1.2 =
    (Ok tt, (set_path P_power 10 fresh).1.2, []).
Proof.
  split; [reflexivity|].
  apply (set_path_idempotent P_power 10 fresh). reflexivity.
Defined.

Lemma readings_commute_witness :
  sensor_of T_bezug ≠ sensor_of T_einspeisung
  ∧ data (run Decimal.float_of_str [(T_bezug, "10.0"); (T_einspeisung, "2.0")] fresh).1 =
    data (run Decimal.float_of_str [(T_einspeisung, "2.0"); (T_bezug, "10.0")] fresh).1.
Proof.
  assert (H : sensor_of T_bezug ≠ sensor_of T_einspeisung) by discriminate.
  split; [exact H|].
  apply (readings_commute Decimal.float_of_str
           T_bezug "10.0" T_einspeisung "2.0" fresh H).
Defined.

Lemma phase_update_outcome_witness :
  let out := update Decimal.float_of_str "hass/sensor/netz_i1/state" "10.0" fresh in
  phase_topic "hass/sensor/netz_i1/state"
  ∧ float_of_payload Decimal.float_of_str "10.0" = Some 10%float
  ∧ out.1.1 = Ok tt
  ∧ last out.2 = Some WarnKeyError.
Proof.
  intros out.
  assert (Ht : phase_topic "hass/sensor/netz_i1/state") by apply list_elem_of_here.
  assert (Hrd : readings_of (<[sensor_of "hass/sensor/netz_i1/state" := 10%float]>
                               (data fresh)) = None) by (vm_compute; reflexivity).
  pose proof (phase_update_outcome Decimal.float_of_str
                "localhost" "dbus-mqtt-meter.py" 40 []
                "hass/sensor/netz_i1/state" "10.0" 10 Ht eq_refl) as H.
  cbv zeta in H. change (after _ _ _ _ []).1 with fresh in H.
  rewrite Hrd in H. destruct H as (H1 & H2 & _).
  split_and!; [exact Ht | reflexivity | exact H1 | exact H2].
Defined.

Lemma plain_update_outcome_witness :
  let out := update Decimal.float_of_str T_bezug "10.0" fresh in
  Py.re_search_digit (sensor_of T_bezug) = None
  ∧ float_of_payload Decimal.float_of_str "10.0" = Some 10%float
  ∧ ∃ b e old,
      data out.1.2 !! K_bezug = Some b
      ∧ data out.1.2 !! K_einspeisung = Some e
      ∧ service fresh !! P_power = Some old
      ∧ out.1.1 = Ok tt
      ∧ out.2 =
          (forwarded (sensor_of T_bezug) 10
             (with_data (insert (sensor_of T_bezug) 10%float) fresh)).2
          ++ (if Py.ne old (1000.0 * (b - e))%float
              then [Publish P_power (1000.0 * (b - e))%float] else []).
Proof.
  intros out. split_and!; [reflexivity..|].
  apply (plain_update_outcome Decimal.float_of_str
           "localhost" "dbus-mqtt-meter.py" 40 [] T_bezug "10.0" 10);
    reflexivity.
Defined.

Lemma same_message_again_witness :
  let first := update Decimal.float_of_str "hass/sensor/netz_i1/state" "10.0" fresh in
  let second := update Decimal.float_of_str "hass/sensor/netz_i1/state" "10.0" first.1.2 in
  float_of_payload Decimal.float_of_str "10.0" = Some 10%float
  ∧ Forall publishes_number first.2
  ∧ second.1.1 = first.1.1
  ∧ second.1.2 = first.1.2
  ∧ ∀ path, published path second.2 = [].
Proof.
  intros first second.
  assert (Hn : Forall publishes_number first.2)
    by (vm_compute; repeat constructor).
  split_and!; [reflexivity | exact Hn |..];
    apply (same_message_again Decimal.float_of_str
             "localhost" "dbus-mqtt-meter.py" 40 [] "hass/sensor/netz_i1/state" "10.0" 10);
    first [left; apply list_elem_of_here | reflexivity | exact Hn].
Defined.

Lemma service_name_inj_witness :
  service_name "com.victronenergy.grid" 40 = "com.victronenergy.grid.mqtt_40"
  ∧ 40%Z = 40%Z.
Proof.
  split; [reflexivity|].
  apply (service_name_inj "com.victronenergy.grid" 40 40). reflexivity.
Defined.
